(** * GitCheckpoints: notebook checkpoints kept as git commits

    A shallow embedding of [gitcheckpoints.py] (class [GitCheckpoints]) and
    the properties of its checkpoint operations.

    The class is a thin adapter around the [git] binary: every operation
    builds an argument vector, runs it with [check_output] in the directory
    of the file, and turns the text that comes back into checkpoint
    records.  The embedding keeps that shape:

    - Python text is [string]; the [str] methods the code calls ([split],
      [strip], [rstrip], [rsplit], ['%i' %]), [os.path.split],
      [textwrap.indent] and [pipes.quote] are written out in module
      [PyStr];
    - the code is written in a state-and-exception monad [M] over a
      [World] that holds everything the class can touch: the disk (files
      and repository, reached only through [git] and through the inherited
      [FileCheckpoints]), the clock, the list of commands run and the
      logger's records;
    - what the class imports ([check_output] on the git binary,
      [dateutil.parser.parse], [utcnow], [_get_os_path] and
      [FileCheckpoints.create_checkpoint] of the host) is a [Variable] of
      section [GitCheckpoints]: every theorem of that section holds for
      whatever these do;
    - module [MiniGit] is one small, executable instance of those
      variables, on which the operations are run on concrete inputs. *)

From Stdlib Require Import String Ascii List ZArith NArith Bool Lia DecimalString.
Import ListNotations.
Local Open Scope string_scope.
Local Open Scope list_scope.

(** ** Python strings *)

Module PyStr.

(** [str.isspace] for the code points below 256. *)
Definition is_space (c : ascii) : bool :=
  let n := N_of_ascii c in
  (((9 <=? n) && (n <=? 13)) || ((28 <=? n) && (n <=? 32))
   || (n =? 133) || (n =? 160))%N.

(** [s.lstrip()] *)
Fixpoint lstrip (s : string) : string :=
  match s with
  | EmptyString => EmptyString
  | String c s' => if is_space c then lstrip s' else s
  end.

(** [s.rstrip()] *)
Fixpoint rstrip (s : string) : string :=
  match s with
  | EmptyString => EmptyString
  | String c s' =>
      match rstrip s' with
      | EmptyString => if is_space c then EmptyString else String c EmptyString
      | r => String c r
      end
  end.

(** [s.strip()] *)
Definition strip (s : string) : string := rstrip (lstrip s).

(** A string of white space only (or of nothing). *)
Fixpoint blank (s : string) : bool :=
  match s with
  | EmptyString => true
  | String c s' => is_space c && blank s'
  end.

(** Truth value of a [str]: the empty string is falsy. *)
Definition truthy (s : string) : bool :=
  match s with EmptyString => false | String _ _ => true end.

(** [s.split()]: the maximal runs of non-space characters, in order. *)
Fixpoint split (s : string) : list string :=
  match s with
  | EmptyString => []
  | String c s' =>
      if is_space c then split s'
      else match s' with
           | EmptyString => [String c EmptyString]
           | String c' _ =>
               if is_space c' then String c EmptyString :: split s'
               else match split s' with
                    | t :: ts => String c t :: ts
                    | [] => [String c EmptyString]
                    end
           end
  end.

(** [(p[:i], p[i:])] with [i = p.rfind('/') + 1]. *)
Fixpoint cut_last_slash (p : string) : string * string :=
  match p with
  | EmptyString => (EmptyString, EmptyString)
  | String c p' =>
      let (h, t) := cut_last_slash p' in
      if truthy h then (String c h, t)
      else if Ascii.eqb c "/" then (String c EmptyString, p')
      else (EmptyString, String c t)
  end.

(** [path.rsplit('/', 1)[-1]] *)
Definition rsplit_last (path : string) : string := snd (cut_last_slash path).

Fixpoint all_slashes (s : string) : bool :=
  match s with
  | EmptyString => true
  | String c s' => Ascii.eqb c "/" && all_slashes s'
  end.

(** [s.rstrip('/')] *)
Fixpoint rstrip_slash (s : string) : string :=
  match s with
  | EmptyString => EmptyString
  | String c s' =>
      match rstrip_slash s' with
      | EmptyString => if Ascii.eqb c "/" then EmptyString else String c EmptyString
      | r => String c r
      end
  end.

(** [os.path.split] of [posixpath]. *)
Definition os_path_split (p : string) : string * string :=
  let (head, tail) := cut_last_slash p in
  if truthy head && negb (all_slashes head) then (rstrip_slash head, tail)
  else (head, tail).

(** The characters that end a line for [str.splitlines], among the code
    points below 256. *)
Definition is_linebreak (c : ascii) : bool :=
  let n := N_of_ascii c in
  (((10 <=? n) && (n <=? 13)) || ((28 <=? n) && (n <=? 30)) || (n =? 133))%N.

(** [s.splitlines(True)]: the lines of [s], each with its line end;
    a carriage return followed by a line feed is one line end. *)
Fixpoint splitlines (s : string) : list string :=
  match s with
  | EmptyString => []
  | String c s' =>
      if is_linebreak c then
        match s' with
        | String c' s'' =>
            if (N_of_ascii c =? 13)%N && (N_of_ascii c' =? 10)%N
            then String c (String c' EmptyString) :: splitlines s''
            else String c EmptyString :: splitlines s'
        | EmptyString => [String c EmptyString]
        end
      else
        match splitlines s' with
        | l :: ls => String c l :: ls
        | [] => [String c EmptyString]
        end
  end.

(** [textwrap.indent(text, prefix)]: the prefix in front of every line
    that is not blank. *)
Definition indent (text prefix : string) : string :=
  fold_right
    (fun line acc =>
       ((if truthy (strip line) then prefix ++ line else line) ++ acc)%string)
    EmptyString (splitlines text).

(** The characters [pipes.quote] leaves as they are: letters, digits
    and [_@%+=:,./-]. *)
Definition is_safe (c : ascii) : bool :=
  let n := N_of_ascii c in
  (((48 <=? n) && (n <=? 57)) || ((65 <=? n) && (n <=? 90))
   || ((97 <=? n) && (n <=? 122)))%N
  || existsb (Ascii.eqb c)
             ["_"; "@"; "%"; "+"; "="; ":"; ","; "."; "/"; "-"]%char.

Fixpoint all_safe (s : string) : bool :=
  match s with
  | EmptyString => true
  | String c s' => is_safe c && all_safe s'
  end.

Definition double_quote : string := String (ascii_of_nat 34) EmptyString.

(** [s.replace(<'>, <'"'"'>)]: every single quote closed, quoted by
    double quotes, and opened again. *)
Fixpoint escape_quotes (s : string) : string :=
  match s with
  | EmptyString => EmptyString
  | String c s' =>
      if Ascii.eqb c "'"
      then ("'" ++ double_quote ++ "'" ++ double_quote ++ "'"
            ++ escape_quotes s')%string
      else String c (escape_quotes s')
  end.

(** [pipes.quote(s)], the [quote] of [shlex]. *)
Definition quote (s : string) : string :=
  if negb (truthy s) then "''"%string
  else if all_safe s then s
  else ("'" ++ escape_quotes s ++ "'")%string.

(** ['%i' % n] *)
Definition fmt_i (n : Z) : string := NilZero.string_of_int (Z.to_int n).

End PyStr.

(** ** Exceptions, results and the spec's error kinds *)

(** The exceptions that can leave a method of the class. *)
Inductive exn : Type :=
| CalledProcessError (returncode : Z) (cmd : list string)
    (* [subprocess.check_output]: the command exited with a non-zero status *)
| UnboundLocalError (name : string)
    (* a local variable read before any assignment to it *)
| RuntimeError (msg : string)
| IndexError
    (* [l[0]] on an empty list *)
| ParserError (text : string)
    (* [dateutil.parser.parse] on text that holds no date *)
| HTTPError (status : Z) (reason : string)
    (* what the host's [FileCheckpoints] raises *)
| OtherError (name : string).
    (* any other exception, by the name of its class: what
       [subprocess.check_output] raises when it cannot run the command at
       all, such as [FileNotFoundError] for a working directory or a git
       binary that does not exist *)

Inductive Result (A : Type) : Type :=
| Ok (a : A)
| Raise (e : exn).
Arguments Ok {A} a.
Arguments Raise {A} e.

Definition is_ok {A} (r : Result A) : bool :=
  match r with Ok _ => true | Raise _ => false end.

(** The error kinds of the specification (its section 7), and the kind
    each exception of the code falls under.  [delete_checkpoint]'s
    [RuntimeError] is the refusal the specification calls Forbidden; a
    failed command is its ExternalToolFailure; a 404 of the host is what a
    notebook server reports for a missing checkpoint.  Nothing in the class
    raises an exception of the kinds NotTracked or Timeout. *)
Inductive ErrorKind : Type :=
| NotTracked | ExternalToolFailure | NotFound | Forbidden | Timeout | Unclassified.

Definition error_kind (e : exn) : ErrorKind :=
  match e with
  | CalledProcessError _ _ => ExternalToolFailure
  | RuntimeError _ => Forbidden
  | HTTPError 404 _ => NotFound
  | _ => Unclassified
  end.

(** ** The world the class acts on *)

(** How a run of the git binary ends, the "text output, or failure" of the
    specification (its section 4.3): exit status 0 with the text of its
    standard output (already decoded: [.decode('utf8', 'replace')] is
    total), or a non-zero exit status; or the command could not be run
    at all, and [check_output] raises an exception that is not a
    [CalledProcessError], named here by its class. *)
Inductive Completed : Type :=
| Exit0 (stdout : string)
| ExitNonzero (returncode : Z)
| NotRun (error : string).

Inductive Level : Type := DEBUG | INFO | WARNING | ERROR.

(** A value handed to the logger. *)
Inductive LogArg : Type :=
| AStr (s : string)
| ACmd (cmd : list string)
| AExn (e : exn).

Record LogRecord : Type := mkLog {
  levelname : Level;
  msg : string;
  args : list LogArg
}.

(** One run of the git binary: working directory and argument vector. *)
Record Command : Type := mkCommand {
  cmd_cwd : string;
  cmd_argv : list string
}.

Section Monad.

Variable Disk : Type.

Record World : Type := mkWorld {
  disk : Disk;            (* files and repository *)
  ticks : nat;            (* how many times the clock has been read *)
  trace : list Command;   (* the commands run so far, oldest first *)
  logs : list LogRecord   (* the logger's records, oldest first *)
}.

Definition M (A : Type) : Type := World -> Result A * World.

Definition ret {A} (a : A) : M A := fun w => (Ok a, w).

Definition raise {A} (e : exn) : M A := fun w => (Raise e, w).

Definition bind {A B} (m : M A) (k : A -> M B) : M B :=
  fun w =>
    match m w with
    | (Ok a, w') => k a w'
    | (Raise e, w') => (Raise e, w')
    end.

(** [try: body / except ...: handler]: the handler sees the world as the
    body left it. *)
Definition try_except {A} (body : M A) (handler : exn -> M A) : M A :=
  fun w =>
    match body w with
    | (Ok a, w') => (Ok a, w')
    | (Raise e, w') => handler e w'
    end.

(** [[f(x) for x in l]] *)
Fixpoint mapM {A B} (f : A -> M B) (l : list A) : M (list B) :=
  match l with
  | [] => ret []
  | x :: xs =>
      bind (f x) (fun y => bind (mapM f xs) (fun ys => ret (y :: ys)))
  end.

(** Reading a local variable: [None] is a name not bound yet. *)
Definition read_local {A} (name : string) (v : option A) : M A :=
  match v with
  | Some a => ret a
  | None => raise (UnboundLocalError name)
  end.

Definition log (l : Level) (m : string) (a : list LogArg) : M unit :=
  fun w => (Ok tt, mkWorld (disk w) (ticks w) (trace w)
                           (logs w ++ [mkLog l m a])).

(** [l[0]] *)
Definition index0 {A} (l : list A) : M A :=
  match l with
  | x :: _ => ret x
  | [] => raise IndexError
  end.

End Monad.

Arguments mkWorld {Disk} _ _ _ _.
Arguments disk {Disk} _.
Arguments ticks {Disk} _.
Arguments trace {Disk} _.
Arguments logs {Disk} _.
Arguments ret {Disk A} _ _.
Arguments raise {Disk A} _ _.
Arguments bind {Disk A B} _ _ _.
Arguments try_except {Disk A} _ _ _.
Arguments mapM {Disk A B} _ _ _.
Arguments read_local {Disk A} _ _ _.
Arguments log {Disk} _ _ _ _.
Arguments index0 {Disk A} _ _.

Declare Scope py_scope.
Delimit Scope py_scope with py.
Notation "x <- m ;; k" := (bind m (fun x => k))
  (at level 100, m at next level, right associativity) : py_scope.
Notation "m ;; k" := (bind m (fun _ => k))
  (at level 100, right associativity) : py_scope.
Local Open Scope py_scope.

(** ** The class *)

(** The checkpoint record, [dict(id=..., last_modified=...)]. *)
Record Checkpoint (datetime : Type) : Type := mkCheckpoint {
  id : string;
  last_modified : datetime
}.
Arguments mkCheckpoint {datetime} _ _.
Arguments id {datetime} _.
Arguments last_modified {datetime} _.

(** The two configurable traits. *)
Record Config : Type := mkConfig {
  max_checkpoints : Z;     (* Integer(5, config=True) *)
  create_commits : bool    (* Bool(True, config=True) *)
}.

Definition default_config : Config := mkConfig 5 true.

(** [args] of [_git]: a [str], split on white space, or a list. *)
Inductive Args : Type :=
| ArgStr (s : string)
| ArgList (l : list string).

(** The id that stands for the staging area. *)
Definition sentinel : string := "--".

Section GitCheckpoints.

Import PyStr.

(** What the class imports or inherits. *)
Variable datetime : Type.
Variable Disk : Type.
Variable ContentsManager : Type.

(** [check_output(cmd, cwd=cwd)] on the git binary. *)
Variable git_exec : string -> list string -> Disk -> Completed * Disk.
(** [utcnow()], at the n-th reading of the clock. *)
Variable clock : nat -> datetime.
(** [dateutil.parser.parse]; [None] is its [ParserError]. *)
Variable parse_date : string -> option datetime.
(** [self.root_dir] and [self._get_os_path]. *)
Variable root_dir : string.
Variable _get_os_path : string -> string.
(** [FileCheckpoints.create_checkpoint], the inherited file-copy store. *)
Variable super_create_checkpoint :
  ContentsManager -> string -> Disk -> Result (Checkpoint datetime) * Disk.

Variable self : Config.

Local Abbreviation World := (World Disk).
Local Abbreviation M := (M Disk).

(** [check_output]: run the command, record it, raise
    [CalledProcessError] on a non-zero exit status and the error of the
    attempt when the command could not be run. *)
Definition check_output (cmd : list string) (cwd : string) : M string :=
  fun w =>
    let (c, d) := git_exec cwd cmd (disk w) in
    let w' := mkWorld d (ticks w) (trace w ++ [mkCommand cwd cmd]) (logs w) in
    match c with
    | Exit0 text => (Ok text, w')
    | ExitNonzero code => (Raise (CalledProcessError code cmd), w')
    | NotRun error => (Raise (OtherError error), w')
    end.

Definition utcnow : M datetime :=
  fun w => (Ok (clock (ticks w)),
            mkWorld (disk w) (S (ticks w)) (trace w) (logs w)).

Definition parse_date_m (text : string) : M datetime :=
  match parse_date text with
  | Some t => ret t
  | None => raise (ParserError text)
  end.

Definition super_create_checkpoint_m (cm : ContentsManager) (path : string)
  : M (Checkpoint datetime) :=
  fun w =>
    let (r, d) := super_create_checkpoint cm path (disk w) in
    (r, mkWorld d (ticks w) (trace w) (logs w)).

(** The command line and working directory [_git] arrives at (lines
    39-48). *)
Definition git_command (args : Args) (path : string) (include_file : bool)
  : Command :=
  let args := match args with ArgStr s => split s | ArgList l => l end in
  let cmd := "git" :: args in
  if truthy path then
    let os_path := _get_os_path path in
    let (parent, name) := os_path_split os_path in
    mkCommand parent (if include_file then cmd ++ [name] else cmd)
  else mkCommand root_dir cmd.

(** [_git] (lines 37-58).  In the handler, line 54 reads the local [out],
    whose only assignment is the statement of line 51 that has just
    raised: the read raises [UnboundLocalError], which replaces the
    [CalledProcessError], and the [raise] of line 55 is not reached. *)
Definition _git (args : Args) (path : string) (include_file : bool) : M string :=
  let c := git_command args path include_file in
  let cmd := cmd_argv c in
  let cwd := cmd_cwd c in
  log DEBUG "[%s]> %s" [AStr cwd; AStr (String.concat " " (map quote cmd))] ;;
  out <- try_except
           (text <- check_output cmd cwd ;; ret (rstrip text))
           (fun e =>
              match e with
              | CalledProcessError _ _ =>
                  log ERROR "%s Failed: %s" [ACmd cmd; AExn e] ;;
                  out <- read_local "out" (@None string) ;;
                  log ERROR "Output: %s" [AStr out] ;;
                  raise e
              | _ => raise e
              end) ;;
  (if truthy out
   then log DEBUG "out> %s" [AStr (strip (indent out "     "))]
   else ret tt) ;;
  ret out.

(** [_in_git] (lines 29-35) *)
Definition _in_git (path : string) : M bool :=
  try_except
    (_git (ArgStr "log -1 --oneline") path true ;; ret true)
    (fun e =>
       match e with
       | CalledProcessError _ _ => ret false
       | _ => raise e
       end).

(** [checkpoint_model] (lines 60-72) *)
Definition checkpoint_model (checkpoint_id : string) (path : string)
  : M (Checkpoint datetime) :=
  if String.eqb checkpoint_id "--" then
    t <- utcnow ;;
    ret (mkCheckpoint checkpoint_id t)
  else
    out <- _git (ArgList ["log"; "-1"; "--date=iso"; "--format=%ad"; checkpoint_id])
                path false ;;
    t <- parse_date_m out ;;
    ret (mkCheckpoint checkpoint_id t).

(** [limit or self.max_checkpoints] (line 106): [None] and [0] are falsy. *)
Definition effective_limit (limit : option Z) : Z :=
  match limit with
  | None => max_checkpoints self
  | Some n => if Z.eqb n 0 then max_checkpoints self else n
  end.

(** [list_checkpoints] (lines 104-115) *)
Definition list_checkpoints (path : string) (limit : option Z)
  : M (list (Checkpoint datetime)) :=
  let limit := effective_limit limit in
  out <- _git (ArgList ["log"; "--format=%H"; ("-" ++ fmt_i limit)%string]) path true ;;
  let checkpoints := split out in
  checkpoints <-
    (if negb (create_commits self) then
       out <- _git (ArgList ["status"; "-s"]) path true ;;
       if truthy (strip out) then ret ("--" :: checkpoints) else ret checkpoints
     else ret checkpoints) ;;
  mapM (fun checkpoint_id => checkpoint_model checkpoint_id path) checkpoints.

(** [create_checkpoint] (lines 74-89) *)
Definition create_checkpoint (contents_mgr : ContentsManager) (path : string)
  : M (Checkpoint datetime) :=
  tracked <- _in_git path ;;
  if negb tracked then
    log WARNING ("Can't create git checkpoint for: " ++ path)%string [] ;;
    super_create_checkpoint_m contents_mgr path
  else
    diff <- _git (ArgStr "diff") path true ;;
    if negb (truthy (strip diff)) then
      log INFO ("Nothing to commit for: " ++ path)%string [] ;;
      checkpoint_model "HEAD" path
    else
      _git (ArgStr "add") path true ;;
      if negb (create_commits self) then
        checkpoint_model "--" path
      else
        let basename := rsplit_last path in
        _git (ArgList ["commit"; "-m"; ("notebook checkpoint " ++ basename)%string; "-o"])
             path true ;;
        l <- list_checkpoints path (Some 1%Z) ;;
        index0 l.

(** [restore_checkpoint] (lines 91-93) *)
Definition restore_checkpoint (contents_mgr : ContentsManager)
  (checkpoint_id : string) (path : string) : M unit :=
  _git (ArgList ["checkout"; checkpoint_id]) path true ;;
  ret tt.

(** [rename_checkpoint] (lines 95-98); [checkpoint_id] may be [None]. *)
Definition rename_checkpoint (checkpoint_id : option string)
  (old_path new_path : string) : M unit :=
  let old_os_path := _get_os_path old_path in
  _git (ArgList ["rm"]) old_os_path true ;;
  ret tt.

(** [delete_checkpoint] (lines 100-102) *)
Definition delete_checkpoint (checkpoint_id : string) (path : string) : M unit :=
  raise (RuntimeError "I'm not going to delete git commits").

(** [rename_all_checkpoints] (lines 117-119) *)
Definition rename_all_checkpoints (old_path new_path : string) : M unit :=
  rename_checkpoint None old_path new_path.

End GitCheckpoints.

(** ** A small git *)

(** One executable instance of what the class imports: a repository that
    lives in one directory, with a linear history, an index and working
    files, and the nine command lines the class builds.  A command run in
    another directory, or one the repository cannot serve, fails: it
    exits with a non-zero status. *)
Module MiniGit.

Import PyStr.
Local Open Scope string_scope.

(** Files by name, with their content. *)
Definition Files : Type := list (string * string).

Fixpoint lookup (name : string) (fs : Files) : option string :=
  match fs with
  | [] => None
  | (n, c) :: fs' => if String.eqb n name then Some c else lookup name fs'
  end.

Fixpoint remove (name : string) (fs : Files) : Files :=
  match fs with
  | [] => []
  | (n, c) :: fs' =>
      if String.eqb n name then remove name fs' else (n, c) :: remove name fs'
  end.

Definition update (name : string) (content : option string) (fs : Files) : Files :=
  match content with
  | Some c => (name, c) :: remove name fs
  | None => remove name fs
  end.

Definition same (a b : option string) : bool :=
  match a, b with
  | Some x, Some y => String.eqb x y
  | None, None => true
  | _, _ => false
  end.

Record Commit : Type := mkCommit {
  c_hash : string;
  c_date : string;
  c_subject : string;
  c_tree : Files
}.

Record Repo : Type := mkRepo {
  repo_dir : string;       (* the directory of the repository and its files *)
  commits : list Commit;   (* newest first: the head of the list is HEAD *)
  index : Files;           (* the staging area *)
  worktree : Files         (* the files on disk *)
}.

Definition nl : string := String (ascii_of_nat 10) EmptyString.

Definition d2 (n : nat) : string :=
  let s := fmt_i (Z.of_nat (n mod 100)) in
  if Nat.ltb (n mod 100) 10 then "0" ++ s else s.

(** The 40 characters of the n-th commit's name. *)
Definition hash_of (n : nat) : string :=
  "c0ffee00000000000000000000000000000000" ++ d2 n.

(** The author date of the n-th commit, as [--date=iso] prints it. *)
Definition date_of (n : nat) : string :=
  "2015-06-01 12:" ++ d2 (n / 60) ++ ":" ++ d2 (n mod 60) ++ " +0000".

Definition head_tree (r : Repo) : Files :=
  match commits r with
  | c :: _ => c_tree c
  | [] => []
  end.

(** The commits that changed [name], newest first. *)
Fixpoint history (name : string) (cs : list Commit) : list Commit :=
  match cs with
  | [] => []
  | c :: older =>
      let parent := match older with p :: _ => c_tree p | [] => [] end in
      if same (lookup name (c_tree c)) (lookup name parent)
      then history name older
      else c :: history name older
  end.

Definition known (name : string) (r : Repo) : bool :=
  match lookup name (worktree r), lookup name (index r) with
  | None, None => existsb (fun c => negb (same (lookup name (c_tree c)) None)) (commits r)
  | _, _ => true
  end.

Fixpoint find_commit (h : string) (cs : list Commit) : option Commit :=
  match cs with
  | [] => None
  | c :: cs' => if String.eqb (c_hash c) h then Some c else find_commit h cs'
  end.

(** A revision: [HEAD] or a full commit name. *)
Definition resolve (rev : string) (r : Repo) : option Commit :=
  if String.eqb rev "HEAD" then
    match commits r with c :: _ => Some c | [] => None end
  else find_commit rev (commits r).

(** [-<n>] *)
Definition parse_count (arg : string) : option nat :=
  match arg with
  | String "-" digits =>
      match NilEmpty.uint_of_string digits with
      | Some u => Some (Nat.of_uint u)
      | None => None
      end
  | _ => None
  end.

Definition lines (l : list string) : string :=
  fold_right (fun s acc => s ++ nl ++ acc) "" l.

Definition letter (a b : option string) : string :=
  if same a b then " "
  else match a, b with
       | None, _ => "A"
       | _, None => "D"
       | _, _ => "M"
       end.

(** [git status -s <name>] *)
Definition status_line (name : string) (r : Repo) : string :=
  let h := lookup name (head_tree r) in
  let i := lookup name (index r) in
  let w := lookup name (worktree r) in
  if same h i && same i w then ""
  else match h, i with
       | None, None => "?? " ++ name ++ nl
       | _, _ => letter h i ++ letter i w ++ " " ++ name ++ nl
       end.

Definition set_index (r : Repo) (i : Files) : Repo :=
  mkRepo (repo_dir r) (commits r) i (worktree r).

(** The git binary, run as [argv] in directory [cwd]. *)
Definition run (cwd : string) (argv : list string) (r : Repo) : Completed * Repo :=
  if negb (String.eqb cwd (repo_dir r)) then (ExitNonzero 128, r)
  else
    match argv with
    | ["git"; "log"; "-1"; "--oneline"; name] =>
        match commits r with
        | [] => (ExitNonzero 128, r)
        | _ :: _ =>
            if known name r then
              match history name (commits r) with
              | c :: _ =>
                  (Exit0 (substring 0 7 (c_hash c) ++ " " ++ c_subject c ++ nl), r)
              | [] => (Exit0 "", r)
              end
            else (ExitNonzero 128, r)
        end
    | ["git"; "diff"; name] =>
        match lookup name (index r) with
        | Some i =>
            if same (Some i) (lookup name (worktree r)) then (Exit0 "", r)
            else (Exit0 ("diff --git a/" ++ name ++ " b/" ++ name ++ nl), r)
        | None =>
            if known name r then (Exit0 "", r) else (ExitNonzero 128, r)
        end
    | ["git"; "add"; name] =>
        if known name r
        then (Exit0 "", set_index r (update name (lookup name (worktree r)) (index r)))
        else (ExitNonzero 128, r)
    | ["git"; "commit"; "-m"; subject; "-o"; name] =>
        let w := lookup name (worktree r) in
        match lookup name (index r), lookup name (head_tree r) with
        | None, None => (ExitNonzero 1, r)
        | _, h =>
            if same w h then (ExitNonzero 1, r)
            else
              let n := length (commits r) in
              let c := mkCommit (hash_of n) (date_of n) subject
                                (update name w (head_tree r)) in
              (Exit0 ("[master " ++ substring 0 7 (hash_of n) ++ "] " ++ subject ++ nl),
               mkRepo (repo_dir r) (c :: commits r)
                      (update name w (index r)) (worktree r))
        end
    | ["git"; "log"; "--format=%H"; count; name] =>
        match commits r, parse_count count with
        | _ :: _, Some n =>
            if known name r
            then (Exit0 (lines (map c_hash (firstn n (history name (commits r))))), r)
            else (ExitNonzero 128, r)
        | _, _ => (ExitNonzero 128, r)
        end
    | ["git"; "status"; "-s"; name] => (Exit0 (status_line name r), r)
    | ["git"; "log"; "-1"; "--date=iso"; "--format=%ad"; rev] =>
        match resolve rev r with
        | Some c => (Exit0 (c_date c ++ nl), r)
        | None => (ExitNonzero 128, r)
        end
    | ["git"; "checkout"; rev; name] =>
        match resolve rev r with
        | Some c =>
            match lookup name (c_tree c) with
            | Some content =>
                (Exit0 "", mkRepo (repo_dir r) (commits r)
                                  (update name (Some content) (index r))
                                  (update name (Some content) (worktree r)))
            | None => (ExitNonzero 1, r)
            end
        | None => (ExitNonzero 1, r)
        end
    | ["git"; "rm"; name] =>
        match lookup name (index r) with
        | Some i =>
            if same (Some i) (lookup name (head_tree r))
               && (same (Some i) (lookup name (worktree r))
                   || same None (lookup name (worktree r)))
            then (Exit0 ("rm '" ++ name ++ "'" ++ nl),
                  mkRepo (repo_dir r) (commits r)
                         (remove name (index r)) (remove name (worktree r)))
            else (ExitNonzero 1, r)
        | None => (ExitNonzero 128, r)
        end
    | _ => (ExitNonzero 129, r)
    end.

(** The user saves new content for a file. *)
Definition write (name content : string) (r : Repo) : Repo :=
  mkRepo (repo_dir r) (commits r) (index r)
         (update name (Some content) (worktree r)).

(** The rest of the instance: dates are kept as the text git prints,
    [dateutil] rejects text with nothing in it, the clock reads the
    seconds of one minute, the server root is [/srv], the OS path of an
    API path is the root joined with it, and the inherited store answers
    with a checkpoint named [checkpoint]. *)
Definition datetime : Type := string.

Definition parse_date (text : string) : option datetime :=
  if truthy (strip text) then Some text else None.

Definition clock (n : nat) : datetime :=
  "2015-07-01 00:00:" ++ d2 n ++ "+00:00".

Definition root_dir : string := "/srv".

(** [s.lstrip('/')] *)
Fixpoint lstrip_slash (s : string) : string :=
  match s with
  | String c s' => if Ascii.eqb c "/" then lstrip_slash s' else s
  | EmptyString => EmptyString
  end.

Definition _get_os_path (path : string) : string :=
  root_dir ++ "/" ++ rstrip_slash (lstrip_slash path).

Definition super_create_checkpoint (cm : unit) (path : string) (r : Repo)
  : Result (Checkpoint datetime) * Repo :=
  (Ok (mkCheckpoint "checkpoint" "2015-07-01 00:00:00+00:00"), r).

End MiniGit.

(** ** Scenarios on the small git *)

(** A server rooted at [/srv] with one repository, [/srv/proj], that
    tracks [a.ipynb]; [/srv/scratch] is an ordinary directory. *)
Module Demo.

Import MiniGit.

Definition c0 : Commit :=
  mkCommit (hash_of 0) (date_of 0) "initial" [("a.ipynb", "v0")].

Definition repo0 : Repo :=
  mkRepo "/srv/proj" [c0] [("a.ipynb", "v0")] [("a.ipynb", "v0")].

Definition w0 : World Repo := mkWorld repo0 0 [] [].

(** The user saves [content] as [name]. *)
Definition edit (name content : string) (w : World Repo) : World Repo :=
  mkWorld (write name content (disk w)) (ticks w) (trace w) (logs w).

Definition staging_only (n : Z) : Config := mkConfig n false.

(** The methods of the class on the small git. *)
Definition in_git : string -> M Repo bool :=
  _in_git Repo run root_dir _get_os_path.

Definition model : string -> string -> M Repo (Checkpoint datetime) :=
  checkpoint_model datetime Repo run clock parse_date root_dir _get_os_path.

Definition create (cfg : Config) : string -> M Repo (Checkpoint datetime) :=
  create_checkpoint datetime Repo unit run clock parse_date root_dir
                    _get_os_path super_create_checkpoint cfg tt.

Definition listing (cfg : Config)
  : string -> option Z -> M Repo (list (Checkpoint datetime)) :=
  list_checkpoints datetime Repo run clock parse_date root_dir _get_os_path cfg.

Definition rename : option string -> string -> string -> M Repo unit :=
  rename_checkpoint Repo run root_dir _get_os_path.

(** Save new content, then checkpoint. *)
Definition save_and_create (cfg : Config) (content : string) (w : World Repo)
  : World Repo :=
  snd (create cfg "proj/a.ipynb" (edit "a.ipynb" content w)).

(** [a.ipynb] saved with new content, not yet checkpointed. *)
Definition w_edited : World Repo := edit "a.ipynb" "v1" w0.

(** Staging-only mode: that content checkpointed (staged), and then the
    first content saved again. *)
Definition w_reverted : World Repo :=
  edit "a.ipynb" "v0" (snd (create (staging_only 5) "proj/a.ipynb" w_edited)).

(** Three commits of [a.ipynb]: the initial one and two checkpoints. *)
Definition w_three : World Repo :=
  save_and_create default_config "v2" (save_and_create default_config "v1" w0).

(** Five checkpoints after the initial commit, with [max_checkpoints = 3]. *)
Definition w_six : World Repo :=
  fold_left (fun w content => save_and_create (mkConfig 3 true) content w)
            ["v1"; "v2"; "v3"; "v4"; "v5"] w0.

End Demo.

(** ** A scripted git *)

(** A second instance: a git that answers from a script, a list of
    command lines with the outcome of each, and answers [ok] to every
    other command; it changes nothing.  The rest of the instance is the
    one of [MiniGit]. *)
Module ScriptedGit.

Definition Script : Type := list (list string * Completed).

Fixpoint same_argv (a b : list string) : bool :=
  match a, b with
  | [], [] => true
  | x :: a', y :: b' => String.eqb x y && same_argv a' b'
  | _, _ => false
  end.

Fixpoint answer (argv : list string) (script : Script) : Completed :=
  match script with
  | [] => Exit0 "ok"
  | (a, c) :: script' => if same_argv a argv then c else answer argv script'
  end.

Definition run (cwd : string) (argv : list string) (script : Script)
  : Completed * Script :=
  (answer argv script, script).

Definition world (script : Script) : World Script := mkWorld script 0 [] [].

Definition git : Args -> string -> bool -> M Script string :=
  _git Script run MiniGit.root_dir MiniGit._get_os_path.

Definition model : string -> string -> M Script (Checkpoint MiniGit.datetime) :=
  checkpoint_model MiniGit.datetime Script run MiniGit.clock MiniGit.parse_date
                   MiniGit.root_dir MiniGit._get_os_path.

Definition listing (cfg : Config)
  : string -> option Z -> M Script (list (Checkpoint MiniGit.datetime)) :=
  list_checkpoints MiniGit.datetime Script run MiniGit.clock MiniGit.parse_date
                   MiniGit.root_dir MiniGit._get_os_path cfg.

Definition fallback (cm : unit) (path : string) (script : Script)
  : Result (Checkpoint MiniGit.datetime) * Script :=
  (Raise (HTTPError 500 "no checkpoint directory"), script).

Definition create (cfg : Config)
  : string -> M Script (Checkpoint MiniGit.datetime) :=
  create_checkpoint MiniGit.datetime Script unit run MiniGit.clock
                    MiniGit.parse_date MiniGit.root_dir MiniGit._get_os_path
                    fallback cfg tt.

Definition restore : string -> string -> M Script unit :=
  restore_checkpoint Script unit run MiniGit.root_dir MiniGit._get_os_path tt.

Definition rename : option string -> string -> string -> M Script unit :=
  rename_checkpoint Script run MiniGit.root_dir MiniGit._get_os_path.

End ScriptedGit.

(** ** Words and file names *)

Module PyStrWords.

Import PyStr.

(** No white space in the string. *)
Fixpoint no_space (s : string) : bool :=
  match s with
  | EmptyString => true
  | String c s' => negb (is_space c) && no_space s'
  end.

(** A word: at least one character, none of them white space. *)
Definition word (s : string) : bool := truthy s && no_space s.

(** No [/] in the string. *)
Fixpoint no_slash (s : string) : bool :=
  match s with
  | EmptyString => true
  | String c s' => negb (Ascii.eqb c "/") && no_slash s'
  end.

(** The last character of the string is [/]. *)
Fixpoint ends_with_slash (s : string) : bool :=
  match s with
  | EmptyString => false
  | String c EmptyString => Ascii.eqb c "/"
  | String _ s' => ends_with_slash s'
  end.

End PyStrWords.

(** ** Facts on Python strings *)

Module PyStrFacts.

Import PyStr.

(** [s.rstrip()] is falsy exactly when [s] is blank. *)
Lemma truthy_rstrip s : truthy (rstrip s) = negb (blank s).
Proof.
  induction s as [| c s IH]; simpl; [reflexivity |].
  destruct (rstrip s) as [| c' r]; simpl in *.
  - apply (f_equal negb) in IH. rewrite negb_involutive in IH. simpl in IH.
    rewrite <- IH, andb_true_r. destruct (is_space c); reflexivity.
  - apply (f_equal negb) in IH. rewrite negb_involutive in IH. simpl in IH.
    rewrite <- IH, andb_false_r. reflexivity.
Qed.

Lemma blank_lstrip s : blank (lstrip s) = blank s.
Proof.
  induction s as [| c s IH]; simpl; [reflexivity |].
  destruct (is_space c) eqn:E; simpl; [exact IH | rewrite E; reflexivity].
Qed.

Lemma blank_rstrip s : blank (rstrip s) = blank s.
Proof.
  induction s as [| c s IH]; simpl; [reflexivity |].
  destruct (rstrip s) as [| c' r]; simpl in *.
  - rewrite <- IH, andb_true_r.
    destruct (is_space c) eqn:E; simpl; [| rewrite E]; reflexivity.
  - rewrite <- IH. reflexivity.
Qed.

(** [not s.strip()] holds exactly when [s] is blank. *)
Lemma truthy_strip s : truthy (strip s) = negb (blank s).
Proof. unfold strip. rewrite truthy_rstrip, blank_lstrip. reflexivity. Qed.

(** The test the class makes on what [_git] returns. *)
Lemma truthy_strip_rstrip s : truthy (strip (rstrip s)) = negb (blank s).
Proof. rewrite truthy_strip, blank_rstrip. reflexivity. Qed.

(** [rstrip] has nothing left to strip from what it returns. *)
Lemma rstrip_idempotent s : rstrip (rstrip s) = rstrip s.
Proof.
  induction s as [| c s IH]; simpl; [reflexivity |].
  destruct (rstrip s) as [| c' r] eqn:E.
  - destruct (is_space c) eqn:Ec; simpl; [| rewrite Ec]; reflexivity.
  - change (rstrip (String c (String c' r))
            = String c (String c' r)).
    simpl. simpl in IH. rewrite IH. reflexivity.
Qed.

Import PyStrWords.

(** [s.split()] returns words. *)
Lemma split_words s : forallb word (split s) = true.
Proof.
  induction s as [| c s IH]; [reflexivity |].
  cbn [split]. destruct (is_space c) eqn:Ec; [exact IH |].
  destruct s as [| c' s'].
  - cbn. rewrite Ec. reflexivity.
  - destruct (is_space c') eqn:Ec'.
    + cbn [forallb]. rewrite IH. cbn. rewrite Ec. reflexivity.
    + destruct (split (String c' s')) as [| t ts].
      * cbn. rewrite Ec. reflexivity.
      * cbn [forallb] in *. apply andb_true_iff in IH. destruct IH as [Ht Hts].
        rewrite Hts, andb_true_r. unfold word in *. cbn.
        rewrite Ec. apply andb_true_iff in Ht. destruct Ht as [_ Ht].
        rewrite Ht. reflexivity.
Qed.

(** [s.split()] is empty exactly when [s] is blank. *)
Lemma split_nil_blank s : split s = [] <-> blank s = true.
Proof.
  induction s as [| c s IH]; [split; reflexivity |].
  cbn [split blank]. destruct (is_space c) eqn:Ec; [exact IH |].
  cbn [andb]. split; [| discriminate].
  destruct s as [| c' s']; [discriminate |].
  destruct (is_space c'); [discriminate |].
  destruct (split (String c' s')); discriminate.
Qed.

Lemma append_assoc (a b c : string) : ((a ++ b) ++ c = a ++ (b ++ c))%string.
Proof. induction a as [| x a IH]; simpl; [| rewrite IH]; reflexivity. Qed.

Lemma append_empty_r (a : string) : (a ++ "" = a)%string.
Proof. induction a as [| x a IH]; simpl; [| rewrite IH]; reflexivity. Qed.

(** The cut at the last [/]: the two parts make the path, and the second
    holds no [/]. *)
Lemma cut_last_slash_spec p :
  (fst (cut_last_slash p) ++ snd (cut_last_slash p) = p)%string /\
  no_slash (snd (cut_last_slash p)) = true /\
  (truthy (fst (cut_last_slash p)) = false ->
   snd (cut_last_slash p) = p).
Proof.
  induction p as [| c p (IH1 & IH2 & IH3)]; [repeat split |].
  cbn [cut_last_slash]. destruct (cut_last_slash p) as [h t]. cbn [fst snd] in *.
  destruct (truthy h) eqn:Eh.
  - cbn [fst snd]. split; [cbn; rewrite IH1; reflexivity |].
    split; [exact IH2 | discriminate].
  - pose proof (IH3 eq_refl) as Ht. subst t.
    destruct (Ascii.eqb c "/") eqn:Ec; cbn [fst snd].
    + repeat split; [exact IH2 | discriminate].
    + repeat split. cbn. rewrite Ec, IH2. reflexivity.
Qed.

(** What [rstrip('/')] takes off is a run of [/]. *)
Lemma rstrip_slash_spec s :
  exists seps, all_slashes seps = true /\ (rstrip_slash s ++ seps = s)%string.
Proof.
  induction s as [| c s (seps & Ha & Hs)]; [exists ""; split; reflexivity |].
  cbn [rstrip_slash]. destruct (rstrip_slash s) as [| c' r] eqn:E.
  - cbn in Hs. subst seps. destruct (Ascii.eqb c "/") eqn:Ec.
    + exists (String c s). split; [cbn; rewrite Ec, Ha |]; reflexivity.
    + exists s. split; [exact Ha | reflexivity].
  - exists seps. split; [exact Ha |]. cbn in *. rewrite Hs. reflexivity.
Qed.

(** The first part of the cut is empty or ends with the last [/]. *)
Lemma cut_last_slash_head p :
  truthy (fst (cut_last_slash p)) = true ->
  ends_with_slash (fst (cut_last_slash p)) = true.
Proof.
  induction p as [| c p IH]; [discriminate |].
  cbn [cut_last_slash]. destruct (cut_last_slash p) as [h t]. cbn [fst] in *.
  destruct (truthy h) eqn:Eh; cbn [fst].
  - intros _. destruct h as [| c' h']; [discriminate |].
    change (ends_with_slash (String c' h') = true). exact (IH eq_refl).
  - destruct (Ascii.eqb c "/") eqn:Ec; cbn [fst]; [| discriminate].
    intros _. cbn. exact Ec.
Qed.

(** What [rstrip('/')] returns does not end with [/]. *)
Lemma rstrip_slash_not_ends s : ends_with_slash (rstrip_slash s) = false.
Proof.
  induction s as [| c s IH]; [reflexivity |].
  cbn [rstrip_slash]. destruct (rstrip_slash s) as [| c' r].
  - destruct (Ascii.eqb c "/") eqn:Ec; [reflexivity | cbn; exact Ec].
  - exact IH.
Qed.

(** It returns something unless the string is made of [/] alone. *)
Lemma rstrip_slash_truthy s :
  all_slashes s = false -> truthy (rstrip_slash s) = true.
Proof.
  induction s as [| c s IH]; [discriminate |].
  cbn [all_slashes rstrip_slash]. intros H.
  destruct (rstrip_slash s) as [| c' r]; [| reflexivity].
  destruct (Ascii.eqb c "/"); [| reflexivity].
  cbn [andb] in H. specialize (IH H). discriminate.
Qed.

(** [os.path.split]: directory, separators and file name make the path
    again, and the file name holds no [/]. *)
Lemma os_path_split_spec p :
  exists seps,
    all_slashes seps = true /\
    (fst (os_path_split p) ++ seps ++ snd (os_path_split p) = p)%string /\
    no_slash (snd (os_path_split p)) = true.
Proof.
  unfold os_path_split.
  destruct (cut_last_slash_spec p) as (H1 & H2 & _).
  destruct (cut_last_slash p) as [h t]. cbn [fst snd] in *.
  destruct (truthy h && negb (all_slashes h)); cbn [fst snd].
  - destruct (rstrip_slash_spec h) as (seps & Ha & Hs).
    exists seps. rewrite <- append_assoc, Hs. auto.
  - exists "". auto.
Qed.

(** [os.path.split] in full.  The file name is what follows the last
    [/] of the path.  The directory is empty when the path holds no [/];
    it is the run of [/] in front of the name when nothing else comes
    before the name; otherwise it is what comes before the name less the
    [/] at its end, of which there is at least one. *)
Lemma os_path_split_pins p :
  exists seps,
    (fst (os_path_split p) ++ seps ++ snd (os_path_split p) = p)%string /\
    no_slash (snd (os_path_split p)) = true /\
    all_slashes seps = true /\
    ((fst (os_path_split p) = EmptyString /\ seps = EmptyString)
     \/ (truthy (fst (os_path_split p)) = true /\
         all_slashes (fst (os_path_split p)) = true /\ seps = EmptyString)
     \/ (truthy (fst (os_path_split p)) = true /\
         ends_with_slash (fst (os_path_split p)) = false /\
         truthy seps = true)).
Proof.
  unfold os_path_split.
  destruct (cut_last_slash_spec p) as (H1 & H2 & _).
  pose proof (cut_last_slash_head p) as Hend.
  destruct (cut_last_slash p) as [h t]. cbn [fst snd] in *.
  destruct (truthy h) eqn:Eh; cbn [andb].
  - destruct (all_slashes h) eqn:Ea; cbn [negb fst snd].
    + exists "". repeat split; auto.
    + destruct (rstrip_slash_spec h) as (seps & Hs1 & Hs2).
      exists seps. rewrite <- append_assoc, Hs2.
      repeat split; auto. right. right.
      split; [apply rstrip_slash_truthy; exact Ea |].
      split; [apply rstrip_slash_not_ends |].
      destruct seps as [| x seps']; [| reflexivity].
      rewrite append_empty_r in Hs2.
      pose proof (rstrip_slash_not_ends h) as Hn.
      rewrite Hs2, (Hend eq_refl) in Hn. discriminate.
  - cbn [fst snd]. destruct h; [| discriminate].
    exists "". repeat split; auto.
Qed.

(** [path.rsplit('/', 1)[-1]] is what follows the last [/] of the path:
    it holds no [/], and what comes before it is empty or ends with
    [/]. *)
Lemma rsplit_last_pins path :
  exists dir,
    (dir ++ rsplit_last path = path)%string /\
    no_slash (rsplit_last path) = true /\
    (dir = EmptyString \/ ends_with_slash dir = true).
Proof.
  unfold rsplit_last.
  destruct (cut_last_slash_spec path) as (H1 & H2 & _).
  pose proof (cut_last_slash_head path) as Hend.
  exists (fst (cut_last_slash path)).
  split; [exact H1 | split; [exact H2 |]].
  destruct (fst (cut_last_slash path)) as [| c h]; [left; reflexivity |].
  right. exact (Hend eq_refl).
Qed.

End PyStrFacts.

(** ** Properties of the class, for every git *)

Section Properties.

Import PyStr.

Variable datetime : Type.
Variable Disk : Type.
Variable ContentsManager : Type.
Variable git_exec : string -> list string -> Disk -> Completed * Disk.
Variable clock : nat -> datetime.
Variable parse_date : string -> option datetime.
Variable root_dir : string.
Variable get_os_path : string -> string.
Variable super_create_checkpoint :
  ContentsManager -> string -> Disk -> Result (Checkpoint datetime) * Disk.
Variable self : Config.

Local Abbreviation git_command' := (git_command root_dir get_os_path).
Local Abbreviation _git' := (_git Disk git_exec root_dir get_os_path).
Local Abbreviation _in_git' := (_in_git Disk git_exec root_dir get_os_path).
Local Abbreviation checkpoint_model' :=
  (checkpoint_model datetime Disk git_exec clock parse_date root_dir get_os_path).
Local Abbreviation list_checkpoints' :=
  (list_checkpoints datetime Disk git_exec clock parse_date root_dir
                    get_os_path self).
Local Abbreviation create_checkpoint' :=
  (create_checkpoint datetime Disk ContentsManager git_exec clock parse_date
                     root_dir get_os_path super_create_checkpoint self).
Local Abbreviation rename_checkpoint' :=
  (rename_checkpoint Disk git_exec root_dir get_os_path).
Local Abbreviation rename_all_checkpoints' :=
  (rename_all_checkpoints Disk git_exec root_dir get_os_path).

(** What git does with a command on a disk. *)
Definition git_on (c : Command) (d : Disk) : Completed * Disk :=
  git_exec (cmd_cwd c) (cmd_argv c) d.

(** The sub-command of a command line: the word after [git]. *)
Definition subcommand (c : Command) : string := nth 1 (cmd_argv c) "".

(** The command lines of the class. *)
Definition probe_cmd (path : string) : Command :=
  git_command' (ArgStr "log -1 --oneline") path true.
Definition diff_cmd (path : string) : Command :=
  git_command' (ArgStr "diff") path true.
Definition add_cmd (path : string) : Command :=
  git_command' (ArgStr "add") path true.
Definition log_cmd (path : string) (n : Z) : Command :=
  git_command' (ArgList ["log"; "--format=%H"; ("-" ++ fmt_i n)%string]) path true.
Definition status_cmd (path : string) : Command :=
  git_command' (ArgList ["status"; "-s"]) path true.
Definition date_cmd (checkpoint_id path : string) : Command :=
  git_command' (ArgList ["log"; "-1"; "--date=iso"; "--format=%ad"; checkpoint_id])
               path false.
Definition rm_cmd (os_path : string) : Command :=
  git_command' (ArgList ["rm"]) os_path true.

(** *** [_git] *)

Lemma _git_exit0 args path inc w text d :
  git_on (git_command' args path inc) (disk w) = (Exit0 text, d) ->
  exists lg,
    _git' args path inc w
    = (Ok (rstrip text),
       mkWorld d (ticks w) (trace w ++ [git_command' args path inc]) lg).
Proof.
  unfold git_on, _git, bind, log, try_except, check_output, ret; simpl.
  intros H. rewrite H.
  destruct (git_command' args path inc) as [cwd argv]; simpl.
  destruct (truthy (rstrip text)); simpl; eexists; reflexivity.
Qed.

Lemma _git_nonzero args path inc w code d :
  git_on (git_command' args path inc) (disk w) = (ExitNonzero code, d) ->
  exists lg,
    _git' args path inc w
    = (Raise (UnboundLocalError "out"),
       mkWorld d (ticks w) (trace w ++ [git_command' args path inc]) lg).
Proof.
  unfold git_on, _git, bind, log, try_except, check_output, ret, raise,
    read_local; simpl.
  intros H. rewrite H.
  destruct (git_command' args path inc) as [cwd argv]; simpl.
  eexists; reflexivity.
Qed.

(** A command that could not be run: the error of the attempt is not a
    [CalledProcessError], the handler of line 52 lets it pass, and
    nothing is logged for it. *)
Lemma _git_not_run args path inc w error d :
  git_on (git_command' args path inc) (disk w) = (NotRun error, d) ->
  exists lg,
    _git' args path inc w
    = (Raise (OtherError error),
       mkWorld d (ticks w) (trace w ++ [git_command' args path inc]) lg).
Proof.
  unfold git_on, _git, bind, log, try_except, check_output, ret, raise,
    read_local; simpl.
  intros H. rewrite H.
  destruct (git_command' args path inc) as [cwd argv]; simpl.
  eexists; reflexivity.
Qed.

(** What leaves [_git] for each way a command can end. *)
Definition raised_for (c : Completed) : option exn :=
  match c with
  | Exit0 _ => None
  | ExitNonzero _ => Some (UnboundLocalError "out")
  | NotRun error => Some (OtherError error)
  end.

Definition unbound_out (e : exn) : Prop := e = UnboundLocalError "out".
Definition parser_error (e : exn) : Prop := exists text, e = ParserError text.
Definition not_run (e : exn) : Prop := exists error, e = OtherError error.

Lemma raised_for_kinds c e :
  raised_for c = Some e -> unbound_out e \/ not_run e.
Proof.
  destruct c as [text | code | error]; cbn; intros H;
    [discriminate | injection H as <-; left; reflexivity
    | injection H as <-; right; eexists; reflexivity].
Qed.

(** Every call of [_git] hands exactly one command to [check_output] and
    reads no clock. *)
Lemma _git_cases args path inc w :
  (exists text d lg,
      git_on (git_command' args path inc) (disk w) = (Exit0 text, d) /\
      _git' args path inc w
      = (Ok (rstrip text),
         mkWorld d (ticks w) (trace w ++ [git_command' args path inc]) lg))
  \/
  (exists c e d lg,
      git_on (git_command' args path inc) (disk w) = (c, d) /\
      raised_for c = Some e /\
      _git' args path inc w
      = (Raise e,
         mkWorld d (ticks w) (trace w ++ [git_command' args path inc]) lg)).
Proof.
  destruct (git_on (git_command' args path inc) (disk w))
    as [[text | code | error] d] eqn:E.
  - left. destruct (_git_exit0 _ _ _ _ _ _ E) as [lg Hlg]. eauto 6.
  - right. destruct (_git_nonzero _ _ _ _ _ _ E) as [lg Hlg].
    exists (ExitNonzero code), (UnboundLocalError "out"), d, lg.
    repeat split. exact Hlg.
  - right. destruct (_git_not_run _ _ _ _ _ _ E) as [lg Hlg].
    exists (NotRun error), (OtherError error), d, lg.
    repeat split. exact Hlg.
Qed.

Lemma _git_ok_inv args path inc w out w1 :
  _git' args path inc w = (Ok out, w1) ->
  exists text,
    git_on (git_command' args path inc) (disk w) = (Exit0 text, disk w1) /\
    out = rstrip text /\
    ticks w1 = ticks w /\
    trace w1 = trace w ++ [git_command' args path inc].
Proof.
  intros H.
  destruct (_git_cases args path inc w)
    as [(text & d & lg & Hg & Hr) | (c & e & d & lg & Hg & He & Hr)];
    rewrite Hr in H; inversion H; subst; simpl.
  exists text. auto.
Qed.

(** The [CalledProcessError] of a failed command never leaves [_git]. *)
Lemma _git_raise_inv args path inc w e w1 :
  _git' args path inc w = (Raise e, w1) ->
  exists c,
    git_on (git_command' args path inc) (disk w) = (c, disk w1) /\
    raised_for c = Some e.
Proof.
  intros H.
  destruct (_git_cases args path inc w)
    as [(text & d & lg & Hg & Hr) | (c & e' & d & lg & Hg & He & Hr)];
    rewrite Hr in H; inversion H; subst; simpl.
  eauto.
Qed.

(** The sub-command is the first argument, whatever the path. *)
Lemma subcommand_git_command args first rest path inc :
  match args with ArgStr s => split s | ArgList l => l end = first :: rest ->
  subcommand (git_command' args path inc) = first.
Proof.
  unfold subcommand, git_command. intros ->.
  destruct (truthy path); [| reflexivity].
  destruct (os_path_split (get_os_path path)) as [parent name]; simpl.
  destruct inc; reflexivity.
Qed.

Lemma bind_ok {A B} (m : M Disk A) (k : A -> M Disk B) w a w1 :
  m w = (Ok a, w1) -> bind m k w = k a w1.
Proof. unfold bind. intros ->. reflexivity. Qed.

Lemma bind_raise {A B} (m : M Disk A) (k : A -> M Disk B) w e w1 :
  m w = (Raise e, w1) -> bind m k w = (Raise e, w1).
Proof. unfold bind. intros ->. reflexivity. Qed.

Lemma bind_ok_inv {A B} (m : M Disk A) (k : A -> M Disk B) w b w2 :
  bind m k w = (Ok b, w2) ->
  exists a w1, m w = (Ok a, w1) /\ k a w1 = (Ok b, w2).
Proof.
  unfold bind. destruct (m w) as [[a|e] w1]; intros H; [eauto | discriminate].
Qed.

(** *** [_in_git] *)

(** The probe has two outcomes: [True] when the command exits with status
    0, and otherwise what leaves [_git], which its
    [except CalledProcessError] clause does not catch. *)
Lemma _in_git_cases path w :
  (exists text d lg,
      git_on (probe_cmd path) (disk w) = (Exit0 text, d) /\
      _in_git' path w
      = (Ok true, mkWorld d (ticks w) (trace w ++ [probe_cmd path]) lg))
  \/
  (exists c e d lg,
      git_on (probe_cmd path) (disk w) = (c, d) /\
      raised_for c = Some e /\
      _in_git' path w
      = (Raise e, mkWorld d (ticks w) (trace w ++ [probe_cmd path]) lg)).
Proof.
  unfold _in_git, try_except, probe_cmd.
  destruct (_git_cases (ArgStr "log -1 --oneline") path true w)
    as [(text & d & lg & Hg & Hr) | (c & e & d & lg & Hg & He & Hr)].
  - left. exists text, d, lg. split; [exact Hg |].
    rewrite (bind_ok _ _ _ _ _ Hr). reflexivity.
  - right. exists c, e, d, lg. split; [exact Hg |]. split; [exact He |].
    rewrite (bind_raise _ _ _ _ _ Hr).
    destruct c; cbn in He; try discriminate; injection He as <-; reflexivity.
Qed.

(** The probe never answers [False]. *)
Lemma _in_git_never_false path w w' : _in_git' path w <> (Ok false, w').
Proof.
  destruct (_in_git_cases path w)
    as [(text & d & lg & _ & Hr) | (c & e & d & lg & _ & _ & Hr)];
    rewrite Hr; discriminate.
Qed.

(** *** [checkpoint_model] *)

Lemma checkpoint_model_sentinel path w :
  checkpoint_model' sentinel path w
  = (Ok (mkCheckpoint sentinel (clock (ticks w))),
     mkWorld (disk w) (S (ticks w)) (trace w) (logs w)).
Proof. reflexivity. Qed.

Lemma checkpoint_model_exit0 checkpoint_id path w text d t :
  checkpoint_id <> sentinel ->
  git_on (date_cmd checkpoint_id path) (disk w) = (Exit0 text, d) ->
  parse_date (rstrip text) = Some t ->
  exists lg,
    checkpoint_model' checkpoint_id path w
    = (Ok (mkCheckpoint checkpoint_id t),
       mkWorld d (ticks w) (trace w ++ [date_cmd checkpoint_id path]) lg).
Proof.
  intros Hid Hg Hp. unfold checkpoint_model.
  destruct (String.eqb_spec checkpoint_id "--") as [E | _]; [contradiction |].
  destruct (_git_exit0 _ _ _ _ _ _ Hg) as [lg Hr].
  rewrite (bind_ok _ _ _ _ _ Hr).
  unfold bind, parse_date_m, ret. rewrite Hp. simpl. eauto.
Qed.

Lemma checkpoint_model_nonzero checkpoint_id path w code d :
  checkpoint_id <> sentinel ->
  git_on (date_cmd checkpoint_id path) (disk w) = (ExitNonzero code, d) ->
  exists lg,
    checkpoint_model' checkpoint_id path w
    = (Raise (UnboundLocalError "out"),
       mkWorld d (ticks w) (trace w ++ [date_cmd checkpoint_id path]) lg).
Proof.
  intros Hid Hg. unfold checkpoint_model.
  destruct (String.eqb_spec checkpoint_id "--") as [E | _]; [contradiction |].
  destruct (_git_nonzero _ _ _ _ _ _ Hg) as [lg Hr].
  rewrite (bind_raise _ _ _ _ _ Hr). eauto.
Qed.

(** A record that comes back carries the id that was asked for. *)
Lemma checkpoint_model_id checkpoint_id path w r w1 :
  checkpoint_model' checkpoint_id path w = (Ok r, w1) -> id r = checkpoint_id.
Proof.
  unfold checkpoint_model.
  destruct (String.eqb checkpoint_id "--").
  - unfold bind, utcnow, ret. intros H. inversion H. reflexivity.
  - intros H.
    apply bind_ok_inv in H. destruct H as (out & w2 & _ & H).
    apply bind_ok_inv in H. destruct H as (t & w3 & _ & H).
    unfold ret in H. inversion H. reflexivity.
Qed.

Lemma mapM_checkpoint_model_ids path ids : forall w recs w',
  mapM (fun checkpoint_id => checkpoint_model' checkpoint_id path) ids w
  = (Ok recs, w') ->
  map id recs = ids.
Proof.
  induction ids as [| i ids IH]; intros w recs w' H; simpl in H.
  - unfold ret in H. inversion H. reflexivity.
  - apply bind_ok_inv in H. destruct H as (r & w1 & Hr & H).
    apply bind_ok_inv in H. destruct H as (rs & w2 & Hrs & H).
    unfold ret in H. inversion H; subst. simpl.
    rewrite (checkpoint_model_id _ _ _ _ _ Hr), (IH _ _ _ Hrs). reflexivity.
Qed.

(** *** [list_checkpoints] *)

(** The ids of the records are the words git printed, in the order it
    printed them, behind the sentinel when there is one. *)
Lemma list_checkpoints_ids path limit w recs w' :
  list_checkpoints' path limit w = (Ok recs, w') ->
  exists log_text d1,
    git_on (log_cmd path (effective_limit self limit)) (disk w)
    = (Exit0 log_text, d1) /\
    if create_commits self then map id recs = split (rstrip log_text)
    else
      exists status_text d2,
        git_on (status_cmd path) d1 = (Exit0 status_text, d2) /\
        map id recs
        = if truthy (strip (rstrip status_text))
          then sentinel :: split (rstrip log_text)
          else split (rstrip log_text).
Proof.
  unfold list_checkpoints. intros H.
  apply bind_ok_inv in H. destruct H as (out & w1 & Hlog & H).
  apply _git_ok_inv in Hlog. destruct Hlog as (log_text & Hg & -> & _ & _).
  exists log_text, (disk w1). split; [exact Hg |].
  apply bind_ok_inv in H. destruct H as (ids & w2 & Hids & H).
  apply mapM_checkpoint_model_ids in H.
  destruct (create_commits self); simpl in Hids.
  - unfold ret in Hids. injection Hids as <- _. exact H.
  - apply bind_ok_inv in Hids. destruct Hids as (st & w3 & Hst & Hids).
    apply _git_ok_inv in Hst. destruct Hst as (status_text & Hg2 & -> & _ & _).
    exists status_text, (disk w3). split; [exact Hg2 |].
    destruct (truthy (strip (rstrip status_text)));
      unfold ret in Hids; injection Hids as <- _; exact H.
Qed.

Lemma list_checkpoints_limit_zero path w :
  list_checkpoints' path (Some 0%Z) w = list_checkpoints' path None w.
Proof. reflexivity. Qed.

(** *** [create_checkpoint] *)

Lemma _in_git_exit0 path w text d :
  git_on (probe_cmd path) (disk w) = (Exit0 text, d) ->
  exists lg,
    _in_git' path w
    = (Ok true, mkWorld d (ticks w) (trace w ++ [probe_cmd path]) lg).
Proof.
  intros H.
  destruct (_in_git_cases path w)
    as [(text' & d' & lg & Hg & Hr) | (c & e & d' & lg & Hg & He & Hr)];
    rewrite H in Hg;
    [injection Hg as <- <- | injection Hg as <- <-; discriminate].
  eauto.
Qed.

(** One successful command of a run: [H] is git's answer to it. *)
Ltac git_step H :=
  match goal with
  | |- context [bind (_git' ?args ?path ?inc) ?k ?w] =>
      let lg := fresh "lg" in
      let Hr := fresh "Hr" in
      destruct (_git_exit0 args path inc w _ _ H) as [lg Hr];
      rewrite (bind_ok _ _ _ _ _ Hr); clear Hr;
      cbn [disk ticks trace logs]
  end.

Ltac probe_step H :=
  match goal with
  | |- context [bind (_in_git' ?path) ?k ?w] =>
      let lg := fresh "lg" in
      let Hr := fresh "Hr" in
      destruct (_in_git_exit0 path w _ _ H) as [lg Hr];
      rewrite (bind_ok _ _ _ _ _ Hr); clear Hr;
      cbn [disk ticks trace logs negb]
  end.

Ltac log_step :=
  match goal with
  | |- context [bind (log ?l ?m ?a) ?k ?w] =>
      rewrite (bind_ok (log l m a) k w tt _ eq_refl);
      cbn [disk ticks trace logs]
  end.

(** When the probe's command fails, so does [create_checkpoint], and the
    probe is the one command that was run. *)
Lemma create_checkpoint_probe_nonzero cm path w code d :
  git_on (probe_cmd path) (disk w) = (ExitNonzero code, d) ->
  exists lg,
    create_checkpoint' cm path w
    = (Raise (UnboundLocalError "out"),
       mkWorld d (ticks w) (trace w ++ [probe_cmd path]) lg).
Proof.
  intros H. unfold create_checkpoint.
  destruct (_in_git_cases path w)
    as [(text & d' & lg & Hg & Hr) | (c & e & d' & lg & Hg & He & Hr)];
    rewrite H in Hg; [discriminate | injection Hg as <- <-].
  cbn in He. injection He as <-.
  rewrite (bind_raise _ _ _ _ _ Hr). eauto.
Qed.

(** The path of lines 79-82: nothing differs, nothing is added or
    committed, and the record of [HEAD] comes back. *)
Lemma create_checkpoint_no_diff cm path w o1 d1 o2 d2 o3 d3 t :
  git_on (probe_cmd path) (disk w) = (Exit0 o1, d1) ->
  git_on (diff_cmd path) d1 = (Exit0 o2, d2) ->
  truthy (strip (rstrip o2)) = false ->
  git_on (date_cmd "HEAD" path) d2 = (Exit0 o3, d3) ->
  parse_date (rstrip o3) = Some t ->
  exists lg,
    create_checkpoint' cm path w
    = (Ok (mkCheckpoint "HEAD" t),
       mkWorld d3 (ticks w)
               (trace w ++ [probe_cmd path; diff_cmd path; date_cmd "HEAD" path])
               lg).
Proof.
  intros H1 H2 Hblank H3 Hp. unfold create_checkpoint.
  probe_step H1. git_step H2. rewrite Hblank. cbn [negb].
  log_step.
  match goal with
  | |- context [checkpoint_model' "HEAD" path ?w1] =>
      destruct (checkpoint_model_exit0 "HEAD" path w1 o3 d3 t) as [lg' Hr];
      [discriminate | exact H3 | exact Hp |]
  end.
  rewrite Hr. cbn [disk ticks trace logs].
  rewrite <- !app_assoc. simpl. eauto.
Qed.

(** *** The claims *)

(** C2. [delete_checkpoint] fails for every id and every path with the
    [RuntimeError] that refuses to delete commits (the Forbidden error of
    the specification), and the world it leaves is the world it found:
    no command was run, no file, clock reading or log record changed. *)
Theorem delete_checkpoint_forbidden (checkpoint_id path : string) (w : World Disk) :
  delete_checkpoint Disk checkpoint_id path w
  = (Raise (RuntimeError "I'm not going to delete git commits"), w)
  /\ error_kind (RuntimeError "I'm not going to delete git commits") = Forbidden.
Proof. split; reflexivity. Qed.

(** C7, as the code has it.  The change that counts is the one
    [git diff] reports, of the file against the index.  In staging-only
    mode, on a file the probe accepts and whose diff is not blank,
    [create_checkpoint] runs the probe, [git diff] and [git add] and
    nothing else (no commit), and returns the record whose id is the
    sentinel and whose [last_modified] is the clock's reading at that
    moment. *)
Theorem create_checkpoint_staging_only cm path w o1 d1 o2 d2 o3 d3 :
  create_commits self = false ->
  git_on (probe_cmd path) (disk w) = (Exit0 o1, d1) ->
  git_on (diff_cmd path) d1 = (Exit0 o2, d2) ->
  truthy (strip (rstrip o2)) = true ->
  git_on (add_cmd path) d2 = (Exit0 o3, d3) ->
  exists w',
    create_checkpoint' cm path w
    = (Ok (mkCheckpoint sentinel (clock (ticks w))), w') /\
    trace w' = trace w ++ [probe_cmd path; diff_cmd path; add_cmd path] /\
    subcommand (add_cmd path) = "add" /\
    Forall (fun c => subcommand c <> "commit")
           [probe_cmd path; diff_cmd path; add_cmd path] /\
    disk w' = d3.
Proof.
  intros Hcfg H1 H2 Hdiff H3. unfold create_checkpoint.
  probe_step H1. git_step H2. rewrite Hdiff. cbn [negb].
  git_step H3. rewrite Hcfg. cbn [negb].
  rewrite checkpoint_model_sentinel. cbn [disk ticks trace logs].
  eexists. split; [reflexivity |]. cbn [disk ticks trace logs].
  rewrite <- !app_assoc. simpl.
  split; [reflexivity |].
  split; [apply (subcommand_git_command (ArgStr "add") "add" []); reflexivity |].
  split; [| reflexivity].
  repeat constructor.
  - unfold probe_cmd.
    rewrite (subcommand_git_command (ArgStr "log -1 --oneline")
                                    "log" ["-1"; "--oneline"]) by reflexivity.
    discriminate.
  - unfold diff_cmd.
    rewrite (subcommand_git_command (ArgStr "diff") "diff" []) by reflexivity.
    discriminate.
  - unfold add_cmd.
    rewrite (subcommand_git_command (ArgStr "add") "add" []) by reflexivity.
    discriminate.
Qed.

(** C3, as the code has it.  When [git diff] prints nothing for a file
    the probe accepts, [create_checkpoint] runs the probe, the diff and
    the query for the date of [HEAD], and nothing else (no add, no commit);
    it returns the record with id [HEAD] and the date git prints for it.
    A second call right after it, on a disk these read-only commands left
    as it was, returns that same record. *)
Theorem create_checkpoint_unchanged cm path w o1 o2 o3 t :
  git_on (probe_cmd path) (disk w) = (Exit0 o1, disk w) ->
  git_on (diff_cmd path) (disk w) = (Exit0 o2, disk w) ->
  truthy (strip (rstrip o2)) = false ->
  git_on (date_cmd "HEAD" path) (disk w) = (Exit0 o3, disk w) ->
  parse_date (rstrip o3) = Some t ->
  exists w1 w2,
    create_checkpoint' cm path w = (Ok (mkCheckpoint "HEAD" t), w1) /\
    trace w1
    = trace w ++ [probe_cmd path; diff_cmd path; date_cmd "HEAD" path] /\
    disk w1 = disk w /\
    create_checkpoint' cm path w1 = (Ok (mkCheckpoint "HEAD" t), w2) /\
    disk w2 = disk w.
Proof.
  intros H1 H2 Hblank H3 Hp.
  destruct (create_checkpoint_no_diff cm path w _ _ _ _ _ _ _ H1 H2 Hblank H3 Hp)
    as [lg1 E1].
  eexists. rewrite E1.
  match goal with
  | |- exists w2, (_, ?w1) = _ /\ _ =>
      destruct (create_checkpoint_no_diff cm path w1 _ _ _ _ _ _ _
                                          H1 H2 Hblank H3 Hp) as [lg2 E2];
      rewrite E2
  end.
  eexists. repeat split.
Qed.

(** X18.  What [rename_checkpoint] leaves alone.  It runs exactly one command,
    [git rm], on what [_git] makes of the OS path of [old_path]: a path
    that has been through [_get_os_path] twice.  It runs no commit and
    reads no clock; the disk it leaves is the one that command left.  Its
    outcome is the same for every [new_path] and every checkpoint id, and
    [rename_all_checkpoints] has that same outcome. *)
Lemma rename_checkpoint_frame checkpoint_id old_path new_path w :
  let c := rm_cmd (get_os_path old_path) in
  let out := rename_checkpoint' checkpoint_id old_path new_path w in
  trace (snd out) = trace w ++ [c] /\
  subcommand c = "rm" /\
  disk (snd out) = snd (git_on c (disk w)) /\
  ticks (snd out) = ticks w /\
  (forall checkpoint_id' new_path',
      rename_checkpoint' checkpoint_id' old_path new_path' w = out) /\
  rename_all_checkpoints' old_path new_path w = out.
Proof.
  cbv zeta. unfold rename_all_checkpoints, rename_checkpoint, rm_cmd.
  split; [| split; [| split; [| split; [| split]]]]; try reflexivity.
  - destruct (_git_cases (ArgList ["rm"]) (get_os_path old_path) true w)
      as [(text & d & lg & Hg & Hr) | (c & e & d & lg & Hg & He & Hr)].
    + rewrite (bind_ok _ _ _ _ _ Hr). reflexivity.
    + rewrite (bind_raise _ _ _ _ _ Hr). reflexivity.
  - apply (subcommand_git_command (ArgList ["rm"]) "rm" []). reflexivity.
  - destruct (_git_cases (ArgList ["rm"]) (get_os_path old_path) true w)
      as [(text & d & lg & Hg & Hr) | (c & e & d & lg & Hg & He & Hr)].
    + rewrite (bind_ok _ _ _ _ _ Hr), Hg. reflexivity.
    + rewrite (bind_raise _ _ _ _ _ Hr), Hg. reflexivity.
  - destruct (_git_cases (ArgList ["rm"]) (get_os_path old_path) true w)
      as [(text & d & lg & Hg & Hr) | (c & e & d & lg & Hg & He & Hr)].
    + rewrite (bind_ok _ _ _ _ _ Hr). reflexivity.
    + rewrite (bind_raise _ _ _ _ _ Hr). reflexivity.
Qed.

Lemma checkpoint_model_raise_inv checkpoint_id path w e w' :
  checkpoint_model' checkpoint_id path w = (Raise e, w') ->
  unbound_out e \/ parser_error e \/ not_run e.
Proof.
  unfold checkpoint_model.
  destruct (String.eqb checkpoint_id "--").
  - unfold bind, utcnow, ret. discriminate.
  - intros H. unfold bind in H.
    match type of H with
    | context [_git' ?a ?p ?i ?w0] =>
        destruct (_git' a p i w0) as [[out | e0] w1] eqn:Hg
    end.
    + unfold parse_date_m in H. destruct (parse_date out).
      * unfold ret in H. discriminate.
      * unfold raise in H. injection H as <- _. right. left. eexists. eauto.
    + injection H as <- _.
      apply _git_raise_inv in Hg. destruct Hg as (c & _ & He).
      destruct (raised_for_kinds _ _ He); auto.
Qed.

(** C6, as the code has it.  For the sentinel id, [checkpoint_model]
    runs no command and returns the record with that id and the clock's
    reading.  For any other id it runs one command, the query for the
    date of the id: when git answers and the answer parses, the record
    has the id given and the parsed date; when git exits with a non-zero
    status (the id does not resolve), no record comes back: an error is
    raised, and it is not of the NotFound kind.  Whenever a record comes
    back its id is the id given, and no error that leaves
    [checkpoint_model] is of the NotFound kind. *)
Theorem checkpoint_model_resolves checkpoint_id path w :
  (checkpoint_id = sentinel ->
   checkpoint_model' checkpoint_id path w
   = (Ok (mkCheckpoint checkpoint_id (clock (ticks w))),
      mkWorld (disk w) (S (ticks w)) (trace w) (logs w)))
  /\
  (checkpoint_id <> sentinel ->
   forall text d t,
     git_on (date_cmd checkpoint_id path) (disk w) = (Exit0 text, d) ->
     parse_date (rstrip text) = Some t ->
     exists w',
       checkpoint_model' checkpoint_id path w
       = (Ok (mkCheckpoint checkpoint_id t), w') /\
       trace w' = trace w ++ [date_cmd checkpoint_id path])
  /\
  (checkpoint_id <> sentinel ->
   forall code d,
     git_on (date_cmd checkpoint_id path) (disk w) = (ExitNonzero code, d) ->
     exists e w',
       checkpoint_model' checkpoint_id path w = (Raise e, w') /\
       trace w' = trace w ++ [date_cmd checkpoint_id path])
  /\
  (forall r w', checkpoint_model' checkpoint_id path w = (Ok r, w') ->
                id r = checkpoint_id)
  /\
  (forall e w', checkpoint_model' checkpoint_id path w = (Raise e, w') ->
                error_kind e <> NotFound).
Proof.
  split; [| split; [| split; [| split]]].
  - intros ->. apply checkpoint_model_sentinel.
  - intros Hid text d t Hg Hp.
    destruct (checkpoint_model_exit0 _ _ _ _ _ _ Hid Hg Hp) as [lg Hr].
    rewrite Hr. eexists. split; reflexivity.
  - intros Hid code d Hg.
    destruct (checkpoint_model_nonzero _ _ _ _ _ Hid Hg) as [lg Hr].
    rewrite Hr. do 2 eexists. split; reflexivity.
  - intros r w'. apply checkpoint_model_id.
  - intros e w' H.
    destruct (checkpoint_model_raise_inv _ _ _ _ _ H)
      as [-> | [[text ->] | [error ->]]];
      discriminate.
Qed.

(** C5. In staging-only mode, the ids of the records [list_checkpoints]
    returns are the words of git's log, in git's order, with the sentinel
    put in front exactly when [git status -s] prints something for the
    file; so, as git's log holds no sentinel, the first record is the
    sentinel if and only if status reports the file as changed. *)
Theorem list_checkpoints_sentinel path limit w recs w' :
  create_commits self = false ->
  list_checkpoints' path limit w = (Ok recs, w') ->
  exists log_text d1 status_text d2,
    git_on (log_cmd path (effective_limit self limit)) (disk w)
    = (Exit0 log_text, d1) /\
    git_on (status_cmd path) d1 = (Exit0 status_text, d2) /\
    map id recs
    = (if truthy (strip (rstrip status_text))
       then sentinel :: split (rstrip log_text)
       else split (rstrip log_text)) /\
    (hd_error (split (rstrip log_text)) <> Some sentinel ->
     (hd_error (map id recs) = Some sentinel
      <-> truthy (strip (rstrip status_text)) = true)).
Proof.
  intros Hcfg H.
  destruct (list_checkpoints_ids _ _ _ _ _ H) as (log_text & d1 & Hg & Hids).
  rewrite Hcfg in Hids. destruct Hids as (status_text & d2 & Hg2 & Hids).
  exists log_text, d1, status_text, d2.
  split; [exact Hg | split; [exact Hg2 | split; [exact Hids |]]].
  intros Hhd. rewrite Hids.
  destruct (truthy (strip (rstrip status_text))); simpl.
  - split; reflexivity.
  - split; [intros E; contradiction | discriminate].
Qed.

(** C1, as the code has it.  [list_checkpoints] asks git for the log with
    the count [limit], or [max_checkpoints] when [limit] is [None] or 0,
    and returns one record per id git printed, in git's order, with at
    most one record in front of them, the sentinel, and only in
    staging-only mode.  In commit mode there are as many records as ids
    printed; so when git prints at most [n] ids, there are at most [n]
    records in commit mode and at most [n + 1] in staging-only mode. *)
Theorem list_checkpoints_length path limit w recs w' :
  list_checkpoints' path limit w = (Ok recs, w') ->
  exists log_text d1,
    git_on (log_cmd path (effective_limit self limit)) (disk w)
    = (Exit0 log_text, d1) /\
    (exists front,
        map id recs = front ++ split (rstrip log_text) /\
        (front = [] \/ create_commits self = false /\ front = [sentinel])) /\
    (create_commits self = true ->
     length recs = length (split (rstrip log_text))) /\
    (forall n, length (split (rstrip log_text)) <= n ->
               length recs <= if create_commits self then n else S n).
Proof.
  intros H.
  destruct (list_checkpoints_ids _ _ _ _ _ H) as (log_text & d1 & Hg & Hids).
  exists log_text, d1. split; [exact Hg |].
  rewrite <- (length_map id recs).
  destruct (create_commits self).
  - rewrite Hids. split; [exists []; auto | split; [reflexivity | auto]].
  - destruct Hids as (status_text & d2 & _ & ->).
    destruct (truthy (strip (rstrip status_text))).
    + split; [exists [sentinel]; auto | split; [discriminate |]].
      simpl. intros n Hn. lia.
    + split; [exists []; auto | split; [discriminate |]].
      intros n Hn. lia.
Qed.

(** C10, as the code has it.  A [limit] of 0 or [None] is replaced by
    [max_checkpoints]: the call is the call with [limit = max_checkpoints]
    and the count handed to git is [max_checkpoints].  The list returned
    has one record per id git printed, behind the sentinel in staging-only
    mode when [git status] prints something.  So when git prints at most
    [max_checkpoints] ids there are at most [max_checkpoints] records in
    commit mode and at most one more in staging-only mode; and the list
    is empty exactly when git prints no id, as it does for
    [max_checkpoints = 0], and no sentinel is put in front. *)
Theorem list_checkpoints_falsy_limit_records path limit w recs w' :
  limit = None \/ limit = Some 0%Z ->
  list_checkpoints' path limit w = (Ok recs, w') ->
  effective_limit self limit = max_checkpoints self /\
  list_checkpoints' path limit w
  = list_checkpoints' path (Some (max_checkpoints self)) w /\
  exists log_text d1,
    git_on (log_cmd path (max_checkpoints self)) (disk w)
    = (Exit0 log_text, d1) /\
    (create_commits self = true ->
     length recs = length (split (rstrip log_text))) /\
    (length (split (rstrip log_text)) <= Z.to_nat (max_checkpoints self) ->
     length recs <= if create_commits self
                    then Z.to_nat (max_checkpoints self)
                    else S (Z.to_nat (max_checkpoints self))) /\
    (recs = [] <->
     split (rstrip log_text) = [] /\
     (create_commits self = true \/
      exists status_text d2,
        git_on (status_cmd path) d1 = (Exit0 status_text, d2) /\
        truthy (strip (rstrip status_text)) = false)).
Proof.
  intros Hl H.
  assert (He : effective_limit self limit = max_checkpoints self)
    by (destruct Hl as [-> | ->]; reflexivity).
  split; [exact He |].
  split.
  { unfold list_checkpoints. rewrite He. unfold effective_limit.
    destruct (max_checkpoints self =? 0)%Z; reflexivity. }
  destruct (list_checkpoints_ids _ _ _ _ _ H) as (log_text & d1 & Hg & Hids).
  rewrite He in Hg. exists log_text, d1. split; [exact Hg |].
  assert (Hnil : recs = [] <-> map id recs = [])
    by (destruct recs; split; intros; try reflexivity; discriminate).
  rewrite Hnil. rewrite <- (length_map id recs).
  destruct (create_commits self).
  - rewrite Hids. split; [reflexivity |]. split; [auto |].
    split; [intros E; split; [exact E | left; reflexivity] | intros [E _]; exact E].
  - destruct Hids as (status_text & d2 & Hs & ->).
    split; [discriminate |].
    destruct (truthy (strip (rstrip status_text))) eqn:Hst.
    + split; [simpl; lia |].
      split; [discriminate |].
      intros [_ [E | (st & d & Hs' & E)]]; [discriminate |].
      rewrite Hs in Hs'. injection Hs' as <- _. congruence.
    + split; [lia |].
      split; [intros E; split; [exact E | right; eauto] | intros [E _]; exact E].
Qed.

(** X19.  The inherited store has no part in what [create_checkpoint]
    does: the branch that calls it needs the probe to answer [False]. *)
Lemma create_checkpoint_ignores_fallback
  (other : ContentsManager -> string -> Disk -> Result (Checkpoint datetime) * Disk)
  cm path w :
  create_checkpoint datetime Disk ContentsManager git_exec clock parse_date
                    root_dir get_os_path other self cm path w
  = create_checkpoint' cm path w.
Proof.
  unfold create_checkpoint.
  destruct (_in_git_cases path w)
    as [(text & d & lg & _ & Hr) | (c & e & d & lg & _ & He & Hr)].
  - rewrite !(bind_ok _ _ _ _ _ Hr). reflexivity.
  - rewrite !(bind_raise _ _ _ _ _ Hr). reflexivity.
Qed.

(** *** More on the runs of [list_checkpoints] and [create_checkpoint] *)

Lemma bind_assoc {A B C} (m : M Disk A) (k : A -> M Disk B)
  (k' : B -> M Disk C) w :
  bind (bind m k) k' w = bind m (fun a => bind (k a) k') w.
Proof. unfold bind. destruct (m w) as [[a | e] w1]; reflexivity. Qed.

Lemma bind_ret {A B} (a : A) (k : A -> M Disk B) w : bind (ret a) k w = k a w.
Proof. reflexivity. Qed.

(** The records of a list of ids, on a disk the date queries leave as
    it is: every id that is not the sentinel has to resolve to a date
    that parses. *)
Lemma mapM_checkpoint_model_returns path d ids :
  (forall i, In i ids -> i <> sentinel ->
             exists text t,
               git_on (date_cmd i path) d = (Exit0 text, d) /\
               parse_date (rstrip text) = Some t) ->
  forall w, disk w = d ->
  exists recs w',
    mapM (fun checkpoint_id => checkpoint_model' checkpoint_id path) ids w
    = (Ok recs, w') /\
    disk w' = d.
Proof.
  induction ids as [| i ids IH]; intros Hall w Hd; simpl.
  - exists [], w. split; [reflexivity | exact Hd].
  - assert (Hi : exists r w1, checkpoint_model' i path w = (Ok r, w1)
                              /\ disk w1 = d).
    { destruct (String.eqb_spec i sentinel) as [-> | Hne].
      - rewrite checkpoint_model_sentinel. do 2 eexists.
        split; [reflexivity | exact Hd].
      - destruct (Hall i (or_introl eq_refl) Hne) as (text & t & Hg & Hp).
        rewrite <- Hd in Hg at 1.
        destruct (checkpoint_model_exit0 _ _ _ _ _ _ Hne Hg Hp) as [lg Hr].
        rewrite Hr. do 2 eexists. split; reflexivity. }
    destruct Hi as (r & w1 & Hr & Hd1).
    rewrite (bind_ok _ _ _ _ _ Hr).
    destruct (IH (fun j Hj => Hall j (or_intror Hj)) w1 Hd1)
      as (rs & w2 & Hrs & Hd2).
    rewrite (bind_ok _ _ _ _ _ Hrs).
    exists (r :: rs), w2. split; [reflexivity | exact Hd2].
Qed.

(** [list_checkpoints] returns a list whenever git answers its queries:
    the log, the status in staging-only mode, and the date of each id the
    log printed. *)
Lemma list_checkpoints_returns path limit w log_text status_text :
  git_on (log_cmd path (effective_limit self limit)) (disk w)
  = (Exit0 log_text, disk w) ->
  (create_commits self = false ->
   git_on (status_cmd path) (disk w) = (Exit0 status_text, disk w)) ->
  (forall i, In i (split (rstrip log_text)) -> i <> sentinel ->
             exists text t,
               git_on (date_cmd i path) (disk w) = (Exit0 text, disk w) /\
               parse_date (rstrip text) = Some t) ->
  exists recs w',
    list_checkpoints' path limit w = (Ok recs, w') /\ disk w' = disk w.
Proof.
  intros Hlog Hst Hall. unfold list_checkpoints.
  git_step Hlog.
  destruct (create_commits self).
  - cbn [negb]. rewrite bind_ret.
    apply mapM_checkpoint_model_returns; [exact Hall | reflexivity].
  - cbn [negb]. rewrite bind_assoc. git_step (Hst eq_refl).
    destruct (truthy (strip (rstrip status_text)));
      rewrite bind_ret;
      apply mapM_checkpoint_model_returns; try reflexivity.
    + intros i [<- | Hi] Hne; [contradiction | exact (Hall i Hi Hne)].
    + exact Hall.
Qed.

Definition commit_cmd (path : string) : Command :=
  git_command'
    (ArgList ["commit"; "-m";
              ("notebook checkpoint " ++ rsplit_last path)%string; "-o"])
    path true.

(** The path of lines 83-89 in commit mode: the content is added and
    committed, and the record is the one of the id that [git log -1]
    prints for the file. *)
Lemma create_checkpoint_commits cm path w
      o1 d1 o2 d2 o3 d3 o4 d4 o5 d5 h o6 d6 t :
  create_commits self = true ->
  git_on (probe_cmd path) (disk w) = (Exit0 o1, d1) ->
  git_on (diff_cmd path) d1 = (Exit0 o2, d2) ->
  truthy (strip (rstrip o2)) = true ->
  git_on (add_cmd path) d2 = (Exit0 o3, d3) ->
  git_on (commit_cmd path) d3 = (Exit0 o4, d4) ->
  git_on (log_cmd path 1) d4 = (Exit0 o5, d5) ->
  split (rstrip o5) = [h] ->
  h <> sentinel ->
  git_on (date_cmd h path) d5 = (Exit0 o6, d6) ->
  parse_date (rstrip o6) = Some t ->
  exists w',
    create_checkpoint' cm path w = (Ok (mkCheckpoint h t), w') /\
    trace w'
    = trace w ++ [probe_cmd path; diff_cmd path; add_cmd path;
                  commit_cmd path; log_cmd path 1; date_cmd h path] /\
    disk w' = d6.
Proof.
  intros Hcfg H1 H2 Hdiff H3 H4 H5 Hh Hne H6 Hp. unfold create_checkpoint.
  probe_step H1. git_step H2. rewrite Hdiff. cbn [negb].
  git_step H3. rewrite Hcfg. cbn [negb].
  git_step H4.
  unfold list_checkpoints. rewrite Hcfg. cbn [negb].
  rewrite bind_assoc.
  change (effective_limit self (Some 1%Z)) with 1%Z.
  git_step H5. rewrite Hh.
  rewrite bind_assoc. rewrite bind_ret.
  cbn [mapM]. rewrite !bind_assoc.
  match goal with
  | |- context [bind (checkpoint_model' h path) ?k ?w5] =>
      destruct (checkpoint_model_exit0 h path w5 o6 d6 t Hne H6 Hp) as [lg' Hr];
      rewrite (bind_ok _ _ _ _ _ Hr)
  end.
  eexists. split; [reflexivity |].
  cbn [disk ticks trace logs]. rewrite <- !app_assoc. simpl.
  split; reflexivity.
Qed.

(** The command of [rename_checkpoint], written out: the file and the
    directory are those of [old_path] taken through [_get_os_path]
    twice. *)
Lemma rename_checkpoint_command old_path :
  truthy (get_os_path old_path) = true ->
  rm_cmd (get_os_path old_path)
  = mkCommand (fst (os_path_split (get_os_path (get_os_path old_path))))
              ["git"; "rm";
               snd (os_path_split (get_os_path (get_os_path old_path)))].
Proof.
  intros H. unfold rm_cmd, git_command. rewrite H.
  destruct (os_path_split (get_os_path (get_os_path old_path))); reflexivity.
Qed.

(** *** Further properties: [_git], the probe and [restore_checkpoint] *)

Local Abbreviation restore_checkpoint' :=
  (restore_checkpoint Disk ContentsManager git_exec root_dir get_os_path).

(** X1.  What [_git] returns is what git printed with the white space at
    its end taken off: it has no white space left at its end, and it is
    the empty (falsy) string exactly when git printed nothing but white
    space.  The call ran that one command and read no clock. *)
Theorem git_returns_stripped_output args path inc w out w' :
  _git' args path inc w = (Ok out, w') ->
  exists text,
    git_on (git_command' args path inc) (disk w) = (Exit0 text, disk w') /\
    out = rstrip text /\
    rstrip out = out /\
    truthy out = negb (blank text) /\
    truthy (strip out) = truthy out /\
    trace w' = trace w ++ [git_command' args path inc] /\
    ticks w' = ticks w.
Proof.
  intros H. apply _git_ok_inv in H. destruct H as (text & Hg & -> & Ht & Htr).
  exists text. split; [exact Hg |]. split; [reflexivity |].
  split; [apply PyStrFacts.rstrip_idempotent |].
  split; [apply PyStrFacts.truthy_rstrip |].
  split; [| split; [exact Htr | exact Ht]].
  rewrite PyStrFacts.truthy_strip_rstrip, PyStrFacts.truthy_rstrip. reflexivity.
Qed.

(** X2.  Where [_git] runs git and on what.  For a path that is not
    empty, the file name is what follows the last [/] of the OS path (it
    holds no [/]), and the working directory is what comes before it
    less the [/] that separate them: the OS path is directory, separators
    and name put together, where the directory is empty and there is no
    separator when the OS path holds no [/], the directory is a run of
    [/] with no separator after it when only [/] come before the name,
    and otherwise the directory is not empty, does not end with [/] and
    is followed by at least one [/].  The name is the last argument when
    [include_file] is set and is left out otherwise.  For the empty path
    the directory is [root_dir] and no file is named.  The command is
    always [git] followed by the arguments given. *)
Theorem git_command_location args path :
  let words := match args with ArgStr s => split s | ArgList l => l end in
  (truthy path = true ->
   exists dir name seps,
     git_command' args path true = mkCommand dir ("git" :: words ++ [name]) /\
     git_command' args path false = mkCommand dir ("git" :: words) /\
     (dir ++ seps ++ name)%string = get_os_path path /\
     PyStrWords.no_slash name = true /\
     all_slashes seps = true /\
     ((dir = EmptyString /\ seps = EmptyString)
      \/ (truthy dir = true /\ all_slashes dir = true /\ seps = EmptyString)
      \/ (truthy dir = true /\ PyStrWords.ends_with_slash dir = false /\
          truthy seps = true)))
  /\
  (forall inc, git_command' args "" inc = mkCommand root_dir ("git" :: words)).
Proof.
  cbv zeta. split; [| reflexivity].
  intros Hp. unfold git_command. rewrite Hp.
  destruct (PyStrFacts.os_path_split_pins (get_os_path path))
    as (seps & Hs & Hn & Ha & Hc).
  destruct (os_path_split (get_os_path path)) as [parent name].
  cbn [fst snd] in *. exists parent, name, seps.
  repeat split; assumption.
Qed.

(** X3.  The probe, for every git: it hands [check_output] the one
    command [git log -1 --oneline <file>].  It returns [True] exactly
    when that command exits with status 0; it raises the
    [UnboundLocalError] of [_git] exactly when the command exits with a
    non-zero status; when the command cannot be run at all, the error of
    the attempt leaves the probe as it is; and it never returns
    [False]. *)
Theorem in_git_outcomes path w :
  let out := _in_git' path w in
  (forall w', out <> (Ok false, w')) /\
  (fst out = Ok true <->
   exists text d, git_on (probe_cmd path) (disk w) = (Exit0 text, d)) /\
  (fst out = Raise (UnboundLocalError "out") <->
   exists code d, git_on (probe_cmd path) (disk w) = (ExitNonzero code, d)) /\
  (forall error,
      fst out = Raise (OtherError error) <->
      exists d, git_on (probe_cmd path) (disk w) = (NotRun error, d)) /\
  trace (snd out) = trace w ++ [probe_cmd path] /\
  disk (snd out) = snd (git_on (probe_cmd path) (disk w)) /\
  ticks (snd out) = ticks w.
Proof.
  cbv zeta.
  split; [intros w'; apply _in_git_never_false |].
  destruct (_in_git_cases path w)
    as [(text & d & lg & Hg & Hr) | (c & e & d & lg & Hg & He & Hr)];
    rewrite Hr, Hg; cbn [fst snd disk ticks trace].
  - split; [split; [eauto | reflexivity] |].
    split; [split; [discriminate | intros (c & d' & E); discriminate] |].
    split; [| repeat split].
    intros error. split; [discriminate | intros (d' & E); discriminate].
  - destruct c as [text | code | error0]; cbn in He;
      [discriminate | injection He as <- | injection He as <-].
    + split; [split; [discriminate | intros (t & d' & E); discriminate] |].
      split; [split; [eauto | reflexivity] |].
      split; [| repeat split].
      intros error. split; [discriminate | intros (d' & E); discriminate].
    + split; [split; [discriminate | intros (t & d' & E); discriminate] |].
      split; [split; [discriminate | intros (c & d' & E); discriminate] |].
      split; [| repeat split].
      intros error. split.
      * intros E. injection E as <-. eauto.
      * intros (d' & E). injection E as <- _. reflexivity.
Qed.

(** X4.  [restore_checkpoint] runs exactly one command,
    [git checkout <id> <file>] in the directory of the file (for the
    sentinel id this reads [git checkout -- <file>]); it runs no probe,
    never turns to the inherited store, reads no clock and does not look
    at [contents_mgr]; it returns [None] exactly when the command exits
    with status 0 and raises otherwise. *)
Theorem restore_checkpoint_runs_checkout cm checkpoint_id path w :
  let c := git_command' (ArgList ["checkout"; checkpoint_id]) path true in
  let out := restore_checkpoint' cm checkpoint_id path w in
  trace (snd out) = trace w ++ [c] /\
  firstn 3 (cmd_argv c) = ["git"; "checkout"; checkpoint_id] /\
  disk (snd out) = snd (git_on c (disk w)) /\
  ticks (snd out) = ticks w /\
  (fst out = Ok tt <-> exists text, fst (git_on c (disk w)) = Exit0 text) /\
  (forall cm', restore_checkpoint' cm' checkpoint_id path w = out).
Proof.
  cbv zeta. unfold restore_checkpoint.
  assert (Hargv : firstn 3 (cmd_argv (git_command'
                                        (ArgList ["checkout"; checkpoint_id])
                                        path true))
                  = ["git"; "checkout"; checkpoint_id]).
  { unfold git_command. destruct (truthy path); [| reflexivity].
    destruct (os_path_split (get_os_path path)); reflexivity. }
  destruct (_git_cases (ArgList ["checkout"; checkpoint_id]) path true w)
    as [(text & d & lg & Hg & Hr) | (c & e & d & lg & Hg & He & Hr)].
  - rewrite (bind_ok _ _ _ _ _ Hr), Hg. cbn.
    repeat split; eauto.
  - rewrite (bind_raise _ _ _ _ _ Hr), Hg. cbn.
    repeat split; try assumption; try discriminate.
    intros (t & E). subst c. discriminate.
Qed.

(** *** Further properties: the commands a method can run *)

(** [appends S m]: whatever the world, [m] leaves the commands already
    run as they are and adds only commands that satisfy [S]. *)
Definition appends {A} (S : Command -> Prop) (m : M Disk A) : Prop :=
  forall w, exists new, trace (snd (m w)) = trace w ++ new /\ Forall S new.

Lemma appends_pure {A} S (m : M Disk A) :
  (forall w, trace (snd (m w)) = trace w) -> appends S m.
Proof.
  intros H w. exists []. rewrite app_nil_r. split; [apply H | constructor].
Qed.

Lemma appends_weaken {A} (S S' : Command -> Prop) (m : M Disk A) :
  (forall c, S c -> S' c) -> appends S m -> appends S' m.
Proof.
  intros HS Hm w. destruct (Hm w) as (new & Ht & Hf).
  exists new. split; [exact Ht |].
  eapply Forall_impl; [| exact Hf]. exact HS.
Qed.

Lemma appends_bind {A B} S (m : M Disk A) (k : A -> M Disk B) :
  appends S m -> (forall a, appends S (k a)) -> appends S (bind m k).
Proof.
  intros Hm Hk w. unfold bind.
  destruct (Hm w) as (new1 & Ht1 & Hf1).
  destruct (m w) as [[a | e] w1]; cbn [snd] in *.
  - destruct (Hk a w1) as (new2 & Ht2 & Hf2).
    exists (new1 ++ new2). rewrite Ht2, Ht1, app_assoc.
    split; [reflexivity | apply Forall_app; auto].
  - exists new1. auto.
Qed.

Lemma appends_mapM {A B} S (f : A -> M Disk B) l :
  (forall a, appends S (f a)) -> appends S (mapM f l).
Proof.
  intros Hf. induction l as [| x xs IH]; cbn [mapM].
  - apply appends_pure. reflexivity.
  - apply appends_bind; [apply Hf |]. intros y.
    apply appends_bind; [exact IH |]. intros ys.
    apply appends_pure. reflexivity.
Qed.

Lemma appends_git S args path inc :
  S (git_command' args path inc) -> appends S (_git' args path inc).
Proof.
  intros HS w. exists [git_command' args path inc].
  split; [| repeat constructor; exact HS].
  destruct (_git_cases args path inc w)
    as [(text & d & lg & _ & Hr) | (c & e & d & lg & _ & He & Hr)];
    rewrite Hr; reflexivity.
Qed.

Lemma appends_in_git S path :
  S (probe_cmd path) -> appends S (_in_git' path).
Proof.
  intros HS w. exists [probe_cmd path].
  split; [| repeat constructor; exact HS].
  destruct (_in_git_cases path w)
    as [(text & d & lg & _ & Hr) | (c & e & d & lg & _ & He & Hr)];
    rewrite Hr; reflexivity.
Qed.

Lemma appends_checkpoint_model S checkpoint_id path :
  (forall i, S (date_cmd i path)) ->
  appends S (checkpoint_model' checkpoint_id path).
Proof.
  intros HS. unfold checkpoint_model.
  destruct (String.eqb checkpoint_id "--").
  - apply appends_pure. reflexivity.
  - apply appends_bind; [apply appends_git; apply HS |]. intros out.
    apply appends_bind; [| intros t; apply appends_pure; reflexivity].
    apply appends_pure. intros w. unfold parse_date_m.
    destruct (parse_date out); reflexivity.
Qed.

Lemma subcommand_probe path : subcommand (probe_cmd path) = "log".
Proof.
  apply (subcommand_git_command (ArgStr "log -1 --oneline")
                                "log" ["-1"; "--oneline"]).
  reflexivity.
Qed.

Lemma subcommand_date i path : subcommand (date_cmd i path) = "log".
Proof.
  apply (subcommand_git_command
           (ArgList ["log"; "-1"; "--date=iso"; "--format=%ad"; i])
           "log" ["-1"; "--date=iso"; "--format=%ad"; i]).
  reflexivity.
Qed.

Lemma appends_list_checkpoints path limit :
  appends (fun c => subcommand c = "log" \/
                    (create_commits self = false /\ subcommand c = "status"))
          (list_checkpoints' path limit).
Proof.
  unfold list_checkpoints.
  apply appends_bind.
  { apply appends_git. left.
    eapply subcommand_git_command. reflexivity. }
  intros out. apply appends_bind.
  - destruct (create_commits self); cbn [negb].
    + apply appends_pure. reflexivity.
    + apply appends_bind.
      * apply appends_git. right. split; [reflexivity |].
        eapply subcommand_git_command. reflexivity.
      * intros st. destruct (truthy (strip st));
          apply appends_pure; reflexivity.
  - intros ids. apply appends_mapM. intros i.
    apply appends_checkpoint_model. intros j. left. apply subcommand_date.
Qed.

(** X5.  The sub-commands of probing, resolving and listing: whatever git
    does, every command that [_in_git] and [checkpoint_model] run has
    the sub-command [log] (the word after [git]), and every command that
    [list_checkpoints] runs has the sub-command [log] or, in staging-only
    mode alone, [status]; the commands run before are left in the trace
    as they were.  This is about the sub-command only: the file name
    and the id that follow it are handed to git as they are. *)
Theorem listing_runs_only_log_and_status path checkpoint_id limit :
  appends (fun c => subcommand c = "log") (_in_git' path) /\
  appends (fun c => subcommand c = "log")
          (checkpoint_model' checkpoint_id path) /\
  appends (fun c => subcommand c = "log" \/
                    (create_commits self = false /\ subcommand c = "status"))
          (list_checkpoints' path limit).
Proof.
  split; [| split].
  - apply appends_in_git. apply subcommand_probe.
  - apply appends_checkpoint_model. intros i. apply subcommand_date.
  - apply appends_list_checkpoints.
Qed.

(** X6.  [create_checkpoint] runs nothing but [git log], [git diff],
    [git add] and, when [create_commits] is set, [git commit]: in
    staging-only mode it never commits, and in no mode does it run
    [git status], [git checkout] or [git rm]. *)
Theorem create_checkpoint_runs_only cm path :
  appends (fun c => In (subcommand c) ["log"; "diff"; "add"] \/
                    (create_commits self = true /\ subcommand c = "commit"))
          (create_checkpoint' cm path).
Proof.
  unfold create_checkpoint.
  apply appends_bind.
  { apply appends_in_git. left. rewrite subcommand_probe. simpl. auto. }
  intros [|]; cbn [negb].
  2:{ apply appends_bind; [apply appends_pure; reflexivity |]. intros _.
      apply appends_pure. intros w. unfold super_create_checkpoint_m.
      destruct (super_create_checkpoint cm path (disk w)). reflexivity. }
  apply appends_bind.
  { apply appends_git. left.
    rewrite (subcommand_git_command (ArgStr "diff") "diff" []) by reflexivity.
    simpl. auto. }
  intros diff. destruct (truthy (strip diff)); cbn [negb].
  2:{ apply appends_bind; [apply appends_pure; reflexivity |]. intros _.
      apply appends_checkpoint_model. intros i. left.
      rewrite subcommand_date. simpl. auto. }
  apply appends_bind.
  { apply appends_git. left.
    rewrite (subcommand_git_command (ArgStr "add") "add" []) by reflexivity.
    simpl. auto. }
  intros _. destruct (create_commits self) eqn:Hcfg; cbn [negb].
  2:{ apply appends_checkpoint_model. intros i. left.
      rewrite subcommand_date. simpl. auto. }
  apply appends_bind.
  { apply appends_git. right. split; [reflexivity |].
    eapply subcommand_git_command. reflexivity. }
  intros _. apply appends_bind.
  - eapply appends_weaken; [| apply appends_list_checkpoints].
    intros c [Hc | [Hc _]]; [| congruence].
    left. rewrite Hc. simpl. auto.
  - intros l. apply appends_pure. intros w. destruct l; reflexivity.
Qed.

(** *** Further properties: what [list_checkpoints] returns *)

(** The records of ids that are not the sentinel, on a disk the date
    queries leave as it is: one query per id, in order, and the record of
    each id carries the date parsed from git's answer. *)
Lemma mapM_checkpoint_model_exact path d (date : string -> datetime) ids :
  ~ In sentinel ids ->
  (forall i, In i ids ->
             exists text,
               git_on (date_cmd i path) d = (Exit0 text, d) /\
               parse_date (rstrip text) = Some (date i)) ->
  forall w, disk w = d ->
  exists lg,
    mapM (fun checkpoint_id => checkpoint_model' checkpoint_id path) ids w
    = (Ok (map (fun i => mkCheckpoint i (date i)) ids),
       mkWorld d (ticks w) (trace w ++ map (fun i => date_cmd i path) ids) lg).
Proof.
  induction ids as [| i ids IH]; intros Hns Hall w Hd; cbn [mapM map].
  - exists (logs w). rewrite app_nil_r, <- Hd. destruct w; reflexivity.
  - destruct (Hall i (or_introl eq_refl)) as (text & Hg & Hp).
    assert (Hne : i <> sentinel) by (intros E; apply Hns; left; auto).
    rewrite <- Hd in Hg at 1.
    destruct (checkpoint_model_exit0 _ _ _ _ _ _ Hne Hg Hp) as [lg Hr].
    rewrite (bind_ok _ _ _ _ _ Hr).
    edestruct (IH (fun H => Hns (or_intror H))
                  (fun j Hj => Hall j (or_intror Hj))) as [lg' Hrs];
      [| rewrite (bind_ok _ _ _ _ _ Hrs)]; [reflexivity |].
    cbn [disk ticks trace logs]. rewrite <- app_assoc.
    exists lg'. reflexivity.
Qed.

(** X7.  The listing in commit mode, on a disk that git's queries leave
    as it is: when the log and the date of each id it prints are
    answered, [list_checkpoints] returns the record of each id, in the
    order printed, with the date parsed for it; it has run the log and
    then one date query per id, and read no clock.  A second listing
    right after it returns the same records. *)
Theorem list_checkpoints_commit_mode path limit w log_text date :
  create_commits self = true ->
  git_on (log_cmd path (effective_limit self limit)) (disk w)
  = (Exit0 log_text, disk w) ->
  ~ In sentinel (split (rstrip log_text)) ->
  (forall i, In i (split (rstrip log_text)) ->
             exists text,
               git_on (date_cmd i path) (disk w) = (Exit0 text, disk w) /\
               parse_date (rstrip text) = Some (date i)) ->
  let ids := split (rstrip log_text) in
  let recs := map (fun i => mkCheckpoint i (date i)) ids in
  exists w1 w2,
    list_checkpoints' path limit w = (Ok recs, w1) /\
    trace w1
    = trace w ++ log_cmd path (effective_limit self limit)
              :: map (fun i => date_cmd i path) ids /\
    ticks w1 = ticks w /\
    disk w1 = disk w /\
    list_checkpoints' path limit w1 = (Ok recs, w2).
Proof.
  intros Hcfg Hlog Hns Hall. cbv zeta.
  assert (Hone : forall w0, disk w0 = disk w ->
            exists lg,
              list_checkpoints' path limit w0
              = (Ok (map (fun i => mkCheckpoint i (date i))
                         (split (rstrip log_text))),
                 mkWorld (disk w) (ticks w0)
                         (trace w0 ++ log_cmd path (effective_limit self limit)
                                   :: map (fun i => date_cmd i path)
                                          (split (rstrip log_text)))
                         lg)).
  { intros w0 Hd. unfold list_checkpoints.
    rewrite <- Hd in Hlog at 1.
    git_step Hlog. rewrite Hcfg. cbn [negb]. rewrite bind_ret.
    edestruct (mapM_checkpoint_model_exact path (disk w) date
                                           (split (rstrip log_text)) Hns Hall)
      as [lg' Hr]; [| rewrite Hr]; [reflexivity |].
    cbn [disk ticks trace logs]. rewrite <- app_assoc.
    exists lg'. reflexivity. }
  destruct (Hone w eq_refl) as [lg1 E1]. rewrite E1.
  match goal with
  | |- exists w1 w2, (_, ?w') = _ /\ _ =>
      destruct (Hone w' eq_refl) as [lg2 E2]
  end.
  do 2 eexists. split; [reflexivity |]. cbn [disk ticks trace logs].
  repeat split. exact E2.
Qed.

(** X8.  The listing in staging-only mode, on a disk that git's queries
    leave as it is.  When status prints something for the file, the
    first record is the sentinel with the reading of the clock at the
    time of the call, followed by the record of each id of the log; when
    status prints nothing, the clock is not read and the records are
    those of the log alone.  The commands run are the log, the status and
    one date query per id of the log. *)
Theorem list_checkpoints_staging_mode path limit w log_text status_text date :
  create_commits self = false ->
  git_on (log_cmd path (effective_limit self limit)) (disk w)
  = (Exit0 log_text, disk w) ->
  git_on (status_cmd path) (disk w) = (Exit0 status_text, disk w) ->
  ~ In sentinel (split (rstrip log_text)) ->
  (forall i, In i (split (rstrip log_text)) ->
             exists text,
               git_on (date_cmd i path) (disk w) = (Exit0 text, disk w) /\
               parse_date (rstrip text) = Some (date i)) ->
  let ids := split (rstrip log_text) in
  let durable := map (fun i => mkCheckpoint i (date i)) ids in
  let changed := negb (blank status_text) in
  exists w1,
    list_checkpoints' path limit w
    = (Ok (if changed
           then mkCheckpoint sentinel (clock (ticks w)) :: durable
           else durable), w1) /\
    trace w1
    = trace w ++ log_cmd path (effective_limit self limit)
              :: status_cmd path :: map (fun i => date_cmd i path) ids /\
    ticks w1 = (if changed then S (ticks w) else ticks w) /\
    disk w1 = disk w.
Proof.
  intros Hcfg Hlog Hst Hns Hall. cbv zeta. unfold list_checkpoints.
  git_step Hlog. rewrite Hcfg. cbn [negb]. rewrite bind_assoc.
  git_step Hst. rewrite PyStrFacts.truthy_strip_rstrip.
  destruct (blank status_text); cbn [negb]; rewrite bind_ret.
  - edestruct (mapM_checkpoint_model_exact path (disk w) date
                                           (split (rstrip log_text)) Hns Hall)
      as [lg' Hr]; [| rewrite Hr]; [reflexivity |].
    cbn [disk ticks trace logs]. rewrite <- !app_assoc.
    eexists. split; [reflexivity |]. repeat split.
  - cbn [mapM]. rewrite (bind_ok _ _ _ _ _ (checkpoint_model_sentinel path _)).
    edestruct (mapM_checkpoint_model_exact path (disk w) date
                                           (split (rstrip log_text)) Hns Hall)
      as [lg' Hr]; [| rewrite (bind_ok _ _ _ _ _ Hr)]; [reflexivity |].
    cbn [disk ticks trace logs]. rewrite <- !app_assoc.
    eexists. split; [reflexivity |]. repeat split.
Qed.

(** X9.  The ids of a listing are words: whatever git prints, every
    record [list_checkpoints] returns has an id that is not empty and
    holds no white space. *)
Theorem list_checkpoints_ids_are_words path limit w recs w' :
  list_checkpoints' path limit w = (Ok recs, w') ->
  Forall (fun r => PyStrWords.word (id r) = true) recs.
Proof.
  intros H.
  destruct (list_checkpoints_ids _ _ _ _ _ H) as (log_text & d1 & _ & Hids).
  assert (Hw : forallb PyStrWords.word (map id recs) = true).
  { destruct (create_commits self).
    - rewrite Hids. apply PyStrFacts.split_words.
    - destruct Hids as (status_text & d2 & _ & ->).
      destruct (truthy (strip (rstrip status_text))); cbn [forallb];
        rewrite PyStrFacts.split_words; reflexivity. }
  rewrite forallb_forall in Hw. apply Forall_forall. intros r Hr.
  apply Hw. apply in_map. exact Hr.
Qed.

(** *** Further properties: [create_checkpoint] by path and by failure *)

(** One failing command of a run: [H] is git's non-zero exit. *)
Ltac git_fail_step H :=
  match goal with
  | |- context [bind (_git' ?args ?path ?inc) ?k ?w] =>
      let lg := fresh "lg" in
      let Hr := fresh "Hr" in
      destruct (_git_nonzero args path inc w _ _ H) as [lg Hr];
      rewrite (bind_raise _ _ _ _ _ Hr); clear Hr;
      cbn [disk ticks trace logs]
  end.

(** X10.  A checkpoint in commit mode of content that has changed: the
    commands run are the probe, [git diff], [git add],
    [git commit -m "notebook checkpoint <base name>" -o <file>],
    [git log --format=%H -1 <file>] and the date query of the id this
    prints, in this order; the record returned has that id and the date
    parsed for it, and no clock was read.  The base name in the message
    is the part of the path after its last [/]: it holds no [/], and
    what comes before it in the path is empty or ends with [/]. *)
Theorem create_checkpoint_commit_mode cm path w
        o1 d1 o2 d2 o3 d3 o4 d4 o5 d5 h o6 d6 t :
  create_commits self = true ->
  git_on (probe_cmd path) (disk w) = (Exit0 o1, d1) ->
  git_on (diff_cmd path) d1 = (Exit0 o2, d2) ->
  blank o2 = false ->
  git_on (add_cmd path) d2 = (Exit0 o3, d3) ->
  git_on (commit_cmd path) d3 = (Exit0 o4, d4) ->
  git_on (log_cmd path 1) d4 = (Exit0 o5, d5) ->
  split (rstrip o5) = [h] ->
  h <> sentinel ->
  git_on (date_cmd h path) d5 = (Exit0 o6, d6) ->
  parse_date (rstrip o6) = Some t ->
  exists w',
    create_checkpoint' cm path w = (Ok (mkCheckpoint h t), w') /\
    trace w'
    = trace w ++ [probe_cmd path; diff_cmd path; add_cmd path;
                  commit_cmd path; log_cmd path 1; date_cmd h path] /\
    disk w' = d6 /\
    ticks w' = ticks w /\
    firstn 5 (cmd_argv (commit_cmd path))
    = ["git"; "commit"; "-m";
       ("notebook checkpoint " ++ rsplit_last path)%string; "-o"] /\
    (exists dir,
        (dir ++ rsplit_last path)%string = path /\
        PyStrWords.no_slash (rsplit_last path) = true /\
        (dir = EmptyString \/ PyStrWords.ends_with_slash dir = true)).
Proof.
  intros Hcfg H1 H2 Hdiff H3 H4 H5 Hh Hne H6 Hp. unfold create_checkpoint.
  probe_step H1. git_step H2.
  rewrite PyStrFacts.truthy_strip_rstrip, Hdiff. cbn [negb].
  git_step H3. rewrite Hcfg. cbn [negb].
  git_step H4.
  unfold list_checkpoints. rewrite Hcfg. cbn [negb].
  rewrite bind_assoc.
  change (effective_limit self (Some 1%Z)) with 1%Z.
  git_step H5. rewrite Hh.
  rewrite bind_assoc. rewrite bind_ret.
  cbn [mapM]. rewrite !bind_assoc.
  match goal with
  | |- context [bind (checkpoint_model' h path) ?k ?w5] =>
      destruct (checkpoint_model_exit0 h path w5 o6 d6 t Hne H6 Hp) as [lg' Hr];
      rewrite (bind_ok _ _ _ _ _ Hr)
  end.
  eexists. split; [reflexivity |].
  cbn [disk ticks trace logs]. rewrite <- !app_assoc. simpl.
  split; [reflexivity |]. split; [reflexivity |]. split; [reflexivity |].
  split; [| apply PyStrFacts.rsplit_last_pins].
  unfold commit_cmd, git_command. destruct (truthy path); [| reflexivity].
  destruct (os_path_split (get_os_path path)); reflexivity.
Qed.

(** X11.  [create_checkpoint] stops at the first command that fails and
    raises; nothing is undone.  When [git diff] fails nothing is added;
    when [git add] fails nothing is committed; when [git commit] fails
    the log is not read, and the disk is the one the failed commit left,
    with the content that [git add] staged. *)
Theorem create_checkpoint_stops_at_failure cm path w o1 d1 :
  git_on (probe_cmd path) (disk w) = (Exit0 o1, d1) ->
  (forall code d2,
      git_on (diff_cmd path) d1 = (ExitNonzero code, d2) ->
      exists w',
        create_checkpoint' cm path w = (Raise (UnboundLocalError "out"), w') /\
        trace w' = trace w ++ [probe_cmd path; diff_cmd path] /\
        disk w' = d2)
  /\
  (forall o2 d2,
      git_on (diff_cmd path) d1 = (Exit0 o2, d2) ->
      blank o2 = false ->
      (forall code d3,
          git_on (add_cmd path) d2 = (ExitNonzero code, d3) ->
          exists w',
            create_checkpoint' cm path w
            = (Raise (UnboundLocalError "out"), w') /\
            trace w' = trace w ++ [probe_cmd path; diff_cmd path; add_cmd path] /\
            disk w' = d3)
      /\
      (forall o3 d3 code d4,
          create_commits self = true ->
          git_on (add_cmd path) d2 = (Exit0 o3, d3) ->
          git_on (commit_cmd path) d3 = (ExitNonzero code, d4) ->
          exists w',
            create_checkpoint' cm path w
            = (Raise (UnboundLocalError "out"), w') /\
            trace w'
            = trace w ++ [probe_cmd path; diff_cmd path; add_cmd path;
                          commit_cmd path] /\
            disk w' = d4)).
Proof.
  intros H1. split.
  - intros code d2 H2. unfold create_checkpoint.
    probe_step H1. git_fail_step H2.
    eexists. split; [reflexivity |]. cbn [disk ticks trace logs].
    rewrite <- !app_assoc. split; reflexivity.
  - intros o2 d2 H2 Hdiff. split.
    + intros code d3 H3. unfold create_checkpoint.
      probe_step H1. git_step H2.
      rewrite PyStrFacts.truthy_strip_rstrip, Hdiff. cbn [negb].
      git_fail_step H3.
      eexists. split; [reflexivity |]. cbn [disk ticks trace logs].
      rewrite <- !app_assoc. split; reflexivity.
    + intros o3 d3 code d4 Hcfg H3 H4. unfold create_checkpoint.
      probe_step H1. git_step H2.
      rewrite PyStrFacts.truthy_strip_rstrip, Hdiff. cbn [negb].
      git_step H3. rewrite Hcfg. cbn [negb].
      git_fail_step H4.
      eexists. split; [reflexivity |]. cbn [disk ticks trace logs].
      rewrite <- !app_assoc. split; reflexivity.
Qed.

(** X12.  A checkpoint in commit mode when the log that follows the
    commit prints no id: [list_checkpoints(path, limit=1)] is the empty
    list and its [[0]] raises [IndexError], after the commit has been
    made. *)
Theorem create_checkpoint_index_error cm path w
        o1 d1 o2 d2 o3 d3 o4 d4 o5 d5 :
  create_commits self = true ->
  git_on (probe_cmd path) (disk w) = (Exit0 o1, d1) ->
  git_on (diff_cmd path) d1 = (Exit0 o2, d2) ->
  blank o2 = false ->
  git_on (add_cmd path) d2 = (Exit0 o3, d3) ->
  git_on (commit_cmd path) d3 = (Exit0 o4, d4) ->
  git_on (log_cmd path 1) d4 = (Exit0 o5, d5) ->
  blank o5 = true ->
  exists w',
    create_checkpoint' cm path w = (Raise IndexError, w') /\
    trace w'
    = trace w ++ [probe_cmd path; diff_cmd path; add_cmd path;
                  commit_cmd path; log_cmd path 1] /\
    disk w' = d5.
Proof.
  intros Hcfg H1 H2 Hdiff H3 H4 H5 Hblank. unfold create_checkpoint.
  probe_step H1. git_step H2.
  rewrite PyStrFacts.truthy_strip_rstrip, Hdiff. cbn [negb].
  git_step H3. rewrite Hcfg. cbn [negb].
  git_step H4.
  unfold list_checkpoints. rewrite Hcfg. cbn [negb].
  rewrite bind_assoc.
  change (effective_limit self (Some 1%Z)) with 1%Z.
  git_step H5.
  assert (Hnil : split (rstrip o5) = []).
  { apply PyStrFacts.split_nil_blank.
    rewrite PyStrFacts.blank_rstrip. exact Hblank. }
  rewrite Hnil.
  eexists. split; [reflexivity |]. cbn [disk ticks trace logs].
  rewrite <- !app_assoc. split; reflexivity.
Qed.

(** *** Further properties: the errors that leave a method *)

(** [raises_only E m]: an error that leaves [m] satisfies [E]. *)
Definition raises_only {A} (E : exn -> Prop) (m : M Disk A) : Prop :=
  forall w e w', m w = (Raise e, w') -> E e.

(** [returns_only Q m]: a value that [m] returns satisfies [Q]. *)
Definition returns_only {A} (Q : A -> Prop) (m : M Disk A) : Prop :=
  forall w a w', m w = (Ok a, w') -> Q a.

Lemma raises_only_never {A} E (m : M Disk A) :
  (forall w, is_ok (fst (m w)) = true) -> raises_only E m.
Proof.
  intros H w e w' Hm. specialize (H w). rewrite Hm in H. discriminate.
Qed.

Lemma raises_only_bind {A B} E Q (m : M Disk A) (k : A -> M Disk B) :
  raises_only E m -> returns_only Q m ->
  (forall a, Q a -> raises_only E (k a)) ->
  raises_only E (bind m k).
Proof.
  intros Hm Hq Hk w e w' H. unfold bind in H.
  destruct (m w) as [[a | e0] w1] eqn:Em.
  - exact (Hk a (Hq _ _ _ Em) _ _ _ H).
  - injection H as <- _. exact (Hm _ _ _ Em).
Qed.

Lemma returns_anything {A} (m : M Disk A) : returns_only (fun _ => True) m.
Proof. intros w a w' _. exact I. Qed.

Lemma raises_only_mapM {A B} E (f : A -> M Disk B) l :
  (forall a, raises_only E (f a)) -> raises_only E (mapM f l).
Proof.
  intros Hf. induction l as [| x xs IH]; cbn [mapM].
  - apply raises_only_never. reflexivity.
  - eapply raises_only_bind; [apply Hf | apply returns_anything |].
    intros y _.
    eapply raises_only_bind; [exact IH | apply returns_anything |].
    intros ys _. apply raises_only_never. reflexivity.
Qed.

(** What can leave [_git]: its [UnboundLocalError], or the error of a
    command that could not be run. *)
Definition git_error (e : exn) : Prop := unbound_out e \/ not_run e.

Lemma raises_only_git (E : exn -> Prop) args path inc :
  (forall e, git_error e -> E e) -> raises_only E (_git' args path inc).
Proof.
  intros HE w e w' H. apply _git_raise_inv in H. destruct H as (c & _ & He).
  apply HE. exact (raised_for_kinds _ _ He).
Qed.

Lemma raises_only_checkpoint_model (E : exn -> Prop) checkpoint_id path :
  (forall e, git_error e -> E e) -> (forall e, parser_error e -> E e) ->
  raises_only E (checkpoint_model' checkpoint_id path).
Proof.
  intros HG HP w e w' H.
  destruct (checkpoint_model_raise_inv _ _ _ _ _ H) as [Hu | [Hp | Hn]];
    [apply HG; left | apply HP | apply HG; right]; assumption.
Qed.

Lemma raises_only_list_checkpoints (E : exn -> Prop) path limit :
  (forall e, git_error e -> E e) -> (forall e, parser_error e -> E e) ->
  raises_only E (list_checkpoints' path limit).
Proof.
  intros HG HP. unfold list_checkpoints.
  eapply raises_only_bind;
    [apply raises_only_git; exact HG | apply returns_anything |].
  intros out _.
  eapply raises_only_bind; [| apply returns_anything |].
  - destruct (create_commits self); cbn [negb].
    + apply raises_only_never. reflexivity.
    + eapply raises_only_bind;
        [apply raises_only_git; exact HG | apply returns_anything |].
      intros st _. destruct (truthy (strip st));
        apply raises_only_never; reflexivity.
  - intros ids _. apply raises_only_mapM. intros i.
    apply raises_only_checkpoint_model; assumption.
Qed.

Lemma returns_only_in_git path : returns_only (fun b => b = true) (_in_git' path).
Proof.
  intros w b w' H.
  destruct (_in_git_cases path w)
    as [(text & d & lg & _ & Hr) | (c & e & d & lg & _ & He & Hr)];
    rewrite Hr in H; [injection H as <- _; reflexivity | discriminate].
Qed.

Lemma raises_only_in_git (E : exn -> Prop) path :
  (forall e, git_error e -> E e) -> raises_only E (_in_git' path).
Proof.
  intros HE w e0 w' H.
  destruct (_in_git_cases path w)
    as [(text & d & lg & _ & Hr) | (c & e & d & lg & _ & He & Hr)];
    rewrite Hr in H; [discriminate | injection H as <- _].
  apply HE. exact (raised_for_kinds _ _ He).
Qed.

(** X13.  The errors that can leave the methods, whatever git, the date
    parser and the inherited store do.  From [restore_checkpoint] and
    [rename_checkpoint]: the [UnboundLocalError] of [_git], for a command
    that exits with a non-zero status, or the error of a command that
    could not be run at all, and nothing else.  From [checkpoint_model]
    and [list_checkpoints]: those, or the [ParserError] of a date.  From
    [create_checkpoint]: those, or [IndexError].  So no method lets the
    [CalledProcessError] of a failed command, or an error of the
    inherited store, reach its caller. *)
Theorem errors_of_the_methods cm checkpoint_id opt_id path old_path new_path limit :
  raises_only (fun e => unbound_out e \/ not_run e)
              (restore_checkpoint' cm checkpoint_id path) /\
  raises_only (fun e => unbound_out e \/ not_run e)
              (rename_checkpoint' opt_id old_path new_path) /\
  raises_only (fun e => unbound_out e \/ not_run e \/ parser_error e)
              (checkpoint_model' checkpoint_id path) /\
  raises_only (fun e => unbound_out e \/ not_run e \/ parser_error e)
              (list_checkpoints' path limit) /\
  raises_only (fun e => unbound_out e \/ not_run e \/ parser_error e
                        \/ e = IndexError)
              (create_checkpoint' cm path).
Proof.
  assert (G3 : forall e, git_error e ->
                         unbound_out e \/ not_run e \/ parser_error e)
    by (intros e [H | H]; auto).
  assert (P3 : forall e, parser_error e ->
                         unbound_out e \/ not_run e \/ parser_error e)
    by auto.
  assert (G4 : forall e, git_error e ->
                         unbound_out e \/ not_run e \/ parser_error e
                         \/ e = IndexError)
    by (intros e [H | H]; auto).
  assert (P4 : forall e, parser_error e ->
                         unbound_out e \/ not_run e \/ parser_error e
                         \/ e = IndexError)
    by auto.
  split; [| split; [| split; [| split]]].
  - unfold restore_checkpoint.
    eapply raises_only_bind;
      [apply raises_only_git; auto | apply returns_anything |].
    intros _ _. apply raises_only_never. reflexivity.
  - unfold rename_checkpoint.
    eapply raises_only_bind;
      [apply raises_only_git; auto | apply returns_anything |].
    intros _ _. apply raises_only_never. reflexivity.
  - apply raises_only_checkpoint_model; assumption.
  - apply raises_only_list_checkpoints; assumption.
  - unfold create_checkpoint.
    eapply raises_only_bind;
      [apply raises_only_in_git; exact G4 | apply returns_only_in_git |].
    intros tracked ->. cbn [negb].
    eapply raises_only_bind;
      [apply raises_only_git; exact G4 | apply returns_anything |].
    intros diff _. destruct (truthy (strip diff)); cbn [negb].
    2:{ eapply raises_only_bind;
          [apply raises_only_never; reflexivity | apply returns_anything |].
        intros _ _. apply raises_only_checkpoint_model; assumption. }
    eapply raises_only_bind;
      [apply raises_only_git; exact G4 | apply returns_anything |].
    intros _ _. destruct (create_commits self); cbn [negb].
    2:{ apply raises_only_checkpoint_model; assumption. }
    eapply raises_only_bind;
      [apply raises_only_git; exact G4 | apply returns_anything |].
    intros _ _.
    eapply raises_only_bind;
      [apply raises_only_list_checkpoints; assumption
      | apply returns_anything |].
    intros l _ w e w' H. destruct l; [| discriminate].
    injection H as <- _. right. right. right. reflexivity.
Qed.

(** X14.  When git answers the date query with text the parser rejects,
    [checkpoint_model] raises [ParserError] with that text, stripped at
    its end; the query has been run. *)
Theorem checkpoint_model_parser_error checkpoint_id path w text d :
  checkpoint_id <> sentinel ->
  git_on (date_cmd checkpoint_id path) (disk w) = (Exit0 text, d) ->
  parse_date (rstrip text) = None ->
  exists w',
    checkpoint_model' checkpoint_id path w
    = (Raise (ParserError (rstrip text)), w') /\
    trace w' = trace w ++ [date_cmd checkpoint_id path] /\
    disk w' = d.
Proof.
  intros Hid Hg Hp. unfold checkpoint_model.
  destruct (String.eqb_spec checkpoint_id "--") as [E | _]; [contradiction |].
  git_step Hg. unfold bind, parse_date_m, raise. rewrite Hp.
  eexists. split; [reflexivity |]. split; reflexivity.
Qed.

(** What follows the log in [list_checkpoints] leaves the trace it finds
    in place. *)
Lemma appends_after_log path ids :
  appends (fun _ => True)
          (bind (if negb (create_commits self)
                 then bind (_git' (ArgList ["status"; "-s"]) path true)
                           (fun out => if truthy (strip out)
                                       then ret ("--" :: ids) else ret ids)
                 else ret ids)
                (fun checkpoints =>
                   mapM (fun checkpoint_id => checkpoint_model' checkpoint_id path)
                        checkpoints)).
Proof.
  apply appends_bind.
  - destruct (create_commits self); cbn [negb].
    + apply appends_pure. reflexivity.
    + apply appends_bind; [apply appends_git; exact I |].
      intros st. destruct (truthy (strip st)); apply appends_pure; reflexivity.
  - intros l. apply appends_mapM. intros i.
    apply appends_checkpoint_model. intros j. exact I.
Qed.

(** X15.  The count [list_checkpoints] hands to git.  Whatever the world,
    the first command of a listing is
    [git log --format=%H -<n> ...], with [n] the limit in force written
    in decimal; whatever else the listing runs comes after it.  A
    negative limit is not refused and not replaced by [max_checkpoints]:
    for [limit = -k] the count reaches git as [--k], an argument that
    starts with two dashes. *)
Theorem list_checkpoints_count_argument path limit w :
  let c := log_cmd path (effective_limit self limit) in
  exists rest,
    trace (snd (list_checkpoints' path limit w)) = trace w ++ c :: rest /\
    firstn 4 (cmd_argv c)
    = ["git"; "log"; "--format=%H";
       ("-" ++ fmt_i (effective_limit self limit))%string] /\
    (forall n, limit = Some n -> (n < 0)%Z ->
               nth 3 (cmd_argv c) "" = ("--" ++ fmt_i (- n))%string).
Proof.
  cbv zeta.
  assert (Hargv : firstn 4 (cmd_argv (log_cmd path (effective_limit self limit)))
                  = ["git"; "log"; "--format=%H";
                     ("-" ++ fmt_i (effective_limit self limit))%string]).
  { unfold log_cmd, git_command. destruct (truthy path); [| reflexivity].
    destruct (os_path_split (get_os_path path)); reflexivity. }
  assert (Hneg : forall n, limit = Some n -> (n < 0)%Z ->
                   nth 3 (cmd_argv (log_cmd path (effective_limit self limit))) ""
                   = ("--" ++ fmt_i (- n))%string).
  { intros n -> Hn.
    assert (H3 : nth 3 (cmd_argv (log_cmd path (effective_limit self (Some n)))) ""
                 = nth 3 (firstn 4 (cmd_argv (log_cmd path
                                       (effective_limit self (Some n))))) "").
    { destruct (cmd_argv (log_cmd path (effective_limit self (Some n))))
        as [| a [| b [| c [| d l]]]]; reflexivity. }
    rewrite H3, Hargv. destruct n as [| q | q]; try lia. reflexivity. }
  unfold list_checkpoints, log_cmd in *.
  destruct (_git_cases
              (ArgList ["log"; "--format=%H";
                        ("-" ++ fmt_i (effective_limit self limit))%string])
              path true w)
    as [(text & d & lg & Hg & Hr) | (c & e & d & lg & Hg & He & Hr)].
  - rewrite (bind_ok _ _ _ _ _ Hr).
    destruct (appends_after_log path (split (rstrip text))
                (mkWorld d (ticks w)
                   (trace w ++ [git_command'
                      (ArgList ["log"; "--format=%H";
                                ("-" ++ fmt_i (effective_limit self limit))%string])
                      path true]) lg))
      as (rest & Ht & _).
    exists rest. rewrite Ht. cbn [trace]. rewrite <- app_assoc.
    split; [reflexivity | split; assumption].
  - rewrite (bind_raise _ _ _ _ _ Hr). exists []. cbn [snd trace].
    split; [reflexivity | split; assumption].
Qed.

(** *** Further properties: the log of [_git] and a listing that fails *)

(** X16.  What [_git] hands to the logger.  Every call first logs the
    command at DEBUG, with the format of line 49: the working directory
    and the words of the command, each quoted as a shell would need it,
    joined by spaces.  A command that exits with status 0 adds one DEBUG
    record when its output is not empty, with the output indented by
    five spaces and stripped, and nothing otherwise.  A command that
    exits with a non-zero status adds exactly one ERROR record, which
    carries the command and the [CalledProcessError] with git's exit
    status.  A command that could not be run adds nothing.  The record
    [Output: %s] of line 54 is never written. *)
Theorem git_log_records args path inc w :
  let c := git_command' args path inc in
  let w' := snd (_git' args path inc w) in
  let first :=
    mkLog DEBUG "[%s]> %s"
          [AStr (cmd_cwd c);
           AStr (String.concat " " (map quote (cmd_argv c)))] in
  let tail :=
    match fst (git_on c (disk w)) with
    | Exit0 text =>
        if truthy (rstrip text)
        then [mkLog DEBUG "out> %s"
                    [AStr (strip (indent (rstrip text) "     "))]]
        else []
    | ExitNonzero code =>
        [mkLog ERROR "%s Failed: %s"
               [ACmd (cmd_argv c);
                AExn (CalledProcessError code (cmd_argv c))]]
    | NotRun error => []
    end in
  logs w' = logs w ++ first :: tail /\
  Forall (fun r => msg r <> "Output: %s") (first :: tail).
Proof.
  cbv zeta.
  unfold git_on, _git, bind, log, try_except, check_output, ret, raise,
    read_local; simpl.
  destruct (git_exec (cmd_cwd (git_command' args path inc))
                     (cmd_argv (git_command' args path inc)) (disk w))
    as [[text | code | error] d]; simpl.
  - destruct (truthy (rstrip text)); simpl;
      (split; [rewrite <- ?app_assoc; reflexivity |]);
      repeat constructor; discriminate.
  - split; [rewrite <- ?app_assoc; reflexivity |].
    repeat constructor; discriminate.
  - split; [reflexivity |]. repeat constructor; discriminate.
Qed.

(** The records of ids up to the first that does not resolve: its query
    is the last command run. *)
Lemma mapM_checkpoint_model_fails path d (date : string -> datetime)
      pre bad post code :
  ~ In sentinel pre ->
  (forall i, In i pre ->
             exists text,
               git_on (date_cmd i path) d = (Exit0 text, d) /\
               parse_date (rstrip text) = Some (date i)) ->
  bad <> sentinel ->
  git_on (date_cmd bad path) d = (ExitNonzero code, d) ->
  forall w, disk w = d ->
  exists lg,
    mapM (fun checkpoint_id => checkpoint_model' checkpoint_id path)
         (pre ++ bad :: post) w
    = (Raise (UnboundLocalError "out"),
       mkWorld d (ticks w)
               (trace w ++ map (fun i => date_cmd i path) (pre ++ [bad])) lg).
Proof.
  intros Hns Hall Hbad Hg.
  induction pre as [| i pre IH]; intros w Hd; cbn [app mapM map].
  - rewrite <- Hd in Hg at 1.
    destruct (checkpoint_model_nonzero _ _ _ _ _ Hbad Hg) as [lg Hr].
    rewrite (bind_raise _ _ _ _ _ Hr). eauto.
  - destruct (Hall i (or_introl eq_refl)) as (text & Hgi & Hp).
    assert (Hne : i <> sentinel) by (intros E; apply Hns; left; auto).
    rewrite <- Hd in Hgi at 1.
    destruct (checkpoint_model_exit0 _ _ _ _ _ _ Hne Hgi Hp) as [lg Hr].
    rewrite (bind_ok _ _ _ _ _ Hr).
    edestruct (IH (fun H => Hns (or_intror H))
                  (fun j Hj => Hall j (or_intror Hj))) as [lg' Hrs];
      [| rewrite (bind_raise _ _ _ _ _ Hrs)]; [reflexivity |].
    cbn [disk ticks trace logs]. rewrite <- app_assoc.
    exists lg'. reflexivity.
Qed.

(** X17.  A listing fails as a whole.  In commit mode, on a disk git's
    queries leave as it is, when the log prints ids of which one does not
    resolve to a date, [list_checkpoints] raises and returns no record,
    not even those of the ids printed before it; the date queries were
    run up to the one that failed, and none after it. *)
Theorem list_checkpoints_fails_as_a_whole path limit w log_text date
        pre bad post code :
  create_commits self = true ->
  git_on (log_cmd path (effective_limit self limit)) (disk w)
  = (Exit0 log_text, disk w) ->
  split (rstrip log_text) = pre ++ bad :: post ->
  ~ In sentinel pre ->
  (forall i, In i pre ->
             exists text,
               git_on (date_cmd i path) (disk w) = (Exit0 text, disk w) /\
               parse_date (rstrip text) = Some (date i)) ->
  bad <> sentinel ->
  git_on (date_cmd bad path) (disk w) = (ExitNonzero code, disk w) ->
  exists w',
    list_checkpoints' path limit w = (Raise (UnboundLocalError "out"), w') /\
    trace w'
    = trace w ++ log_cmd path (effective_limit self limit)
              :: map (fun i => date_cmd i path) (pre ++ [bad]).
Proof.
  intros Hcfg Hlog Hids Hns Hall Hbad Hg. unfold list_checkpoints.
  git_step Hlog. rewrite Hcfg. cbn [negb]. rewrite bind_ret. rewrite Hids.
  edestruct (mapM_checkpoint_model_fails path (disk w) date pre bad post code
                                         Hns Hall Hbad Hg)
    as [lg' Hr]; [| rewrite Hr]; [reflexivity |].
  cbn [disk ticks trace logs]. rewrite <- app_assoc.
  eexists. split; reflexivity.
Qed.

End Properties.

(** ** Runs on the small git *)

Section Runs.

Import PyStr MiniGit.

Local Abbreviation nb := "proj/a.ipynb".

(** C1, as stated, fails.  In staging-only mode with [limit = 1], a file
    with one commit and unsaved changes is listed with two records, the
    sentinel and the commit; and with [limit = 0] the three commits of a
    file are all listed. *)
Lemma list_checkpoints_exceeds_limit :
  (exists recs w',
      Demo.listing (Demo.staging_only 5) nb (Some 1%Z) Demo.w_edited
      = (Ok recs, w') /\
      map id recs = [sentinel; hash_of 0] /\
      ~ (length recs <= Z.to_nat 1))
  /\
  (exists recs w',
      Demo.listing default_config nb (Some 0%Z) Demo.w_three = (Ok recs, w') /\
      map id recs = [hash_of 2; hash_of 1; hash_of 0] /\
      ~ (length recs <= Z.to_nat 0)).
Proof.
  split; do 2 eexists; (split; [vm_compute; reflexivity |]);
    (split; [reflexivity | simpl; lia]).
Qed.

(** The listing of the notebook's three commits, by [list_checkpoints_length]. *)
Lemma list_checkpoints_length_witness :
  exists recs w',
    Demo.listing default_config nb None Demo.w_three = (Ok recs, w') /\
    map id recs = [hash_of 2; hash_of 1; hash_of 0] /\
    length recs <= 5.
Proof.
  do 2 eexists. split; [vm_compute; reflexivity |].
  split; [reflexivity |].
  edestruct (list_checkpoints_length
               datetime Repo run clock parse_date root_dir _get_os_path
               default_config nb None Demo.w_three)
    as (log_text & d1 & Hg & _ & _ & Hn).
  - vm_compute. reflexivity.
  - apply (Hn 5). vm_compute in Hg. injection Hg as <- _.
    vm_compute. repeat constructor.
Defined.

(** Retention in commit mode: after five checkpoints on top of the
    initial commit, with [max_checkpoints = 3], the listing holds exactly
    the three newest commits, newest first. *)
Lemma retention_after_five_checkpoints :
  exists recs w',
    Demo.listing (mkConfig 3 true) nb None Demo.w_six = (Ok recs, w') /\
    length (commits (disk Demo.w_six)) = 6 /\
    map id recs = [hash_of 5; hash_of 4; hash_of 3].
Proof.
  do 2 eexists. split; [vm_compute; reflexivity |]. split; reflexivity.
Qed.

(** C3, as stated, fails.  With the default configuration, a checkpoint
    of changed content returns the new commit under its own name; the
    call that follows it, with the content as it was, makes no commit and
    returns the record with id [HEAD]: the two records carry the same
    date and are not equal. *)
Lemma create_checkpoint_twice_differs :
  exists r1 w1 r2 w2,
    Demo.create default_config nb Demo.w_edited = (Ok r1, w1) /\
    Demo.create default_config nb w1 = (Ok r2, w2) /\
    commits (disk w2) = commits (disk w1) /\
    r1 = mkCheckpoint (hash_of 1) (date_of 1) /\
    r2 = mkCheckpoint "HEAD" (date_of 1) /\
    r1 <> r2.
Proof.
  do 4 eexists.
  split; [vm_compute; reflexivity |].
  split; [vm_compute; reflexivity |].
  split; [reflexivity |].
  split; [reflexivity |].
  split; [reflexivity | discriminate].
Qed.

(** The same in staging-only mode: the sentinel first, [HEAD] next. *)
Lemma create_checkpoint_twice_differs_staging :
  exists r1 w1 r2 w2,
    Demo.create (Demo.staging_only 5) nb Demo.w_edited = (Ok r1, w1) /\
    Demo.create (Demo.staging_only 5) nb w1 = (Ok r2, w2) /\
    id r1 = sentinel /\ id r2 = "HEAD".
Proof.
  do 4 eexists.
  split; [vm_compute; reflexivity |].
  split; [vm_compute; reflexivity |].
  split; reflexivity.
Qed.

(** Two checkpoints in a row of the notebook as committed, by
    [create_checkpoint_unchanged]. *)
Lemma create_checkpoint_unchanged_witness :
  exists w1 w2,
    Demo.create default_config nb Demo.w0
    = (Ok (mkCheckpoint "HEAD" (date_of 0)), w1) /\
    Demo.create default_config nb w1
    = (Ok (mkCheckpoint "HEAD" (date_of 0)), w2) /\
    disk w2 = disk Demo.w0.
Proof.
  edestruct (create_checkpoint_unchanged
               datetime Repo unit run clock parse_date root_dir _get_os_path
               super_create_checkpoint default_config tt nb Demo.w0)
    as (w1 & w2 & E1 & _ & _ & E2 & Hd).
  - reflexivity.
  - reflexivity.
  - reflexivity.
  - reflexivity.
  - reflexivity.
  - exists w1, w2. split; [exact E1 | split; [exact E2 | exact Hd]].
Defined.

(** C6, as stated, fails.  An id that names no commit makes git exit
    with status 128; what leaves [checkpoint_model] is the
    [UnboundLocalError] of [_git], which is not an error of the NotFound
    kind. *)
Lemma checkpoint_model_unknown_id :
  run "/srv/proj" ["git"; "log"; "-1"; "--date=iso"; "--format=%ad"; "deadbeef"]
      Demo.repo0
  = (ExitNonzero 128, Demo.repo0)
  /\
  exists e w',
    Demo.model "deadbeef" nb Demo.w0 = (Raise e, w') /\
    e = UnboundLocalError "out" /\
    error_kind e <> NotFound.
Proof.
  split; [reflexivity |].
  do 2 eexists. split; [vm_compute; reflexivity |].
  split; [reflexivity | discriminate].
Qed.

(** A commit's name, an unknown name and the sentinel, by
    [checkpoint_model_resolves]. *)
Lemma checkpoint_model_resolves_witness :
  (exists w',
      Demo.model (hash_of 0) nb Demo.w0
      = (Ok (mkCheckpoint (hash_of 0) (date_of 0)), w') /\
      trace w'
      = [mkCommand "/srv/proj"
           ["git"; "log"; "-1"; "--date=iso"; "--format=%ad"; hash_of 0]])
  /\
  (exists e w',
      Demo.model "deadbeef" nb Demo.w0 = (Raise e, w') /\
      trace w'
      = [mkCommand "/srv/proj"
           ["git"; "log"; "-1"; "--date=iso"; "--format=%ad"; "deadbeef"]])
  /\
  Demo.model sentinel nb Demo.w0
  = (Ok (mkCheckpoint sentinel (clock 0)), mkWorld Demo.repo0 1 [] []).
Proof.
  split; [| split].
  - refine (proj1 (proj2 (checkpoint_model_resolves
                            datetime Repo run clock parse_date root_dir
                            _get_os_path (hash_of 0) nb Demo.w0))
                  _ (date_of 0 ++ nl)%string Demo.repo0 (date_of 0) _ _);
      [discriminate | reflexivity | reflexivity].
  - refine (proj1 (proj2 (proj2 (checkpoint_model_resolves
                                   datetime Repo run clock parse_date root_dir
                                   _get_os_path "deadbeef" nb Demo.w0)))
                  _ 128%Z Demo.repo0 _);
      [discriminate | reflexivity].
  - refine (proj1 (checkpoint_model_resolves
                     datetime Repo run clock parse_date root_dir
                     _get_os_path sentinel nb Demo.w0) _).
    reflexivity.
Defined.

(** The staging-only listing of the edited notebook, by
    [list_checkpoints_sentinel]. *)
Lemma list_checkpoints_sentinel_witness :
  exists recs w',
    Demo.listing (Demo.staging_only 5) nb None Demo.w_edited = (Ok recs, w') /\
    map id recs = [sentinel; hash_of 0] /\
    run "/srv/proj" ["git"; "status"; "-s"; "a.ipynb"] (disk Demo.w_edited)
    = (Exit0 (" M a.ipynb" ++ nl)%string, disk Demo.w_edited).
Proof.
  do 2 eexists. split; [vm_compute; reflexivity |].
  edestruct (list_checkpoints_sentinel
               datetime Repo run clock parse_date root_dir _get_os_path
               (Demo.staging_only 5) nb None Demo.w_edited)
    as (log_text & d1 & status_text & d2 & Hg & Hs & Hids & _).
  - reflexivity.
  - vm_compute. reflexivity.
  - vm_compute in Hg. injection Hg as <- <-.
    vm_compute in Hs. injection Hs as <- <-.
    split; [exact Hids | reflexivity].
Defined.

(** The staging-only checkpoint of the edited notebook, by
    [create_checkpoint_staging_only]: the content is in the index and the
    history is as it was. *)
Lemma create_checkpoint_staging_only_witness :
  exists w',
    Demo.create (Demo.staging_only 5) nb Demo.w_edited
    = (Ok (mkCheckpoint sentinel (clock 0)), w') /\
    trace w'
    = [mkCommand "/srv/proj" ["git"; "log"; "-1"; "--oneline"; "a.ipynb"];
       mkCommand "/srv/proj" ["git"; "diff"; "a.ipynb"];
       mkCommand "/srv/proj" ["git"; "add"; "a.ipynb"]] /\
    commits (disk w') = commits (disk Demo.w_edited) /\
    lookup "a.ipynb" (index (disk w')) = Some "v1".
Proof.
  edestruct (create_checkpoint_staging_only
               datetime Repo unit run clock parse_date root_dir _get_os_path
               super_create_checkpoint (Demo.staging_only 5) tt nb Demo.w_edited)
    as (w' & E & Ht & _ & _ & Hd).
  - reflexivity.
  - reflexivity.
  - reflexivity.
  - reflexivity.
  - reflexivity.
  - exists w'. split; [exact E |]. split; [exact Ht |].
    rewrite Hd. split; reflexivity.
Defined.

(** C4.  The probe on a file of [/srv/scratch], a directory that is not
    in a repository: git exits with status 128, and the probe does not
    return [False]; it raises the [UnboundLocalError] of [_git].  On the
    tracked notebook it returns [True]. *)
Theorem in_git_raises_when_git_fails :
  run "/srv/scratch" ["git"; "log"; "-1"; "--oneline"; "b.ipynb"] Demo.repo0
  = (ExitNonzero 128, Demo.repo0)
  /\ fst (Demo.in_git "scratch/b.ipynb" Demo.w0) = Raise (UnboundLocalError "out")
  /\ fst (Demo.in_git nb Demo.w0) = Ok true.
Proof. split; [| split]; vm_compute; reflexivity. Qed.

(** C8.  [create_checkpoint] on that untracked file: the one command run
    is the probe, the repository is left as it was, and the call does not
    return what the inherited store returns for the file; it raises the
    [UnboundLocalError] of [_git]. *)
Theorem create_checkpoint_untracked_raises :
  let out := Demo.create default_config "scratch/b.ipynb" Demo.w0 in
  fst out = Raise (UnboundLocalError "out")
  /\ trace (snd out)
     = [mkCommand "/srv/scratch" ["git"; "log"; "-1"; "--oneline"; "b.ipynb"]]
  /\ disk (snd out) = Demo.repo0
  /\ fst (super_create_checkpoint tt "scratch/b.ipynb" Demo.repo0)
     = Ok (mkCheckpoint "checkpoint" "2015-07-01 00:00:00+00:00").
Proof. cbv zeta. repeat split; vm_compute; reflexivity. Qed.

(** The listing of the three commits with [limit = 0], by
    [list_checkpoints_falsy_limit_records]: git is asked for 5 commits,
    the default [max_checkpoints], and the three commits are listed. *)
Lemma list_checkpoints_falsy_limit_records_witness :
  exists recs w',
    Demo.listing default_config nb (Some 0%Z) Demo.w_three = (Ok recs, w') /\
    map id recs = [hash_of 2; hash_of 1; hash_of 0] /\
    Demo.listing default_config nb (Some 0%Z) Demo.w_three
    = Demo.listing default_config nb (Some 5%Z) Demo.w_three /\
    length recs <= 5 /\
    recs <> [].
Proof.
  edestruct (list_checkpoints_falsy_limit_records
               datetime Repo run clock parse_date root_dir _get_os_path
               default_config nb (Some 0%Z) Demo.w_three)
    as (_ & Hsame & log_text & d1 & Hg & _ & Hn & _).
  - right. reflexivity.
  - vm_compute. reflexivity.
  - do 2 eexists. split; [vm_compute; reflexivity |].
    split; [reflexivity |].
    split; [exact Hsame |].
    split; [| discriminate].
    apply Hn. vm_compute in Hg. injection Hg as <- _.
    vm_compute. repeat constructor.
Defined.

(** C10, as stated, fails on both counts.  With [max_checkpoints = 0],
    [limit = 0] makes the code ask git for [-0] commits and return the
    empty list.  In staging-only mode with [max_checkpoints = 1], on the
    notebook saved with new content, [limit = 0] returns two records,
    the sentinel and the one commit, more than [max_checkpoints]. *)
Lemma list_checkpoints_falsy_limit_fails :
  (exists w',
      Demo.listing (mkConfig 0 true) nb (Some 0%Z) Demo.w_three = (Ok [], w') /\
      trace w'
      = trace Demo.w_three
        ++ [mkCommand "/srv/proj" ["git"; "log"; "--format=%H"; "-0"; "a.ipynb"]])
  /\
  (exists w',
      Demo.listing (Demo.staging_only 1) nb (Some 0%Z) Demo.w_edited
      = (Ok [mkCheckpoint sentinel (clock 0);
             mkCheckpoint (hash_of 0) (date_of 0)], w') /\
      Z.of_nat (length [mkCheckpoint sentinel (clock 0);
                        mkCheckpoint (hash_of 0) (date_of 0)])
      > max_checkpoints (Demo.staging_only 1))%Z.
Proof.
  split.
  - eexists. split; vm_compute; reflexivity.
  - eexists. split; [vm_compute; reflexivity | reflexivity].
Qed.

(** C7, as stated, fails.  In staging-only mode, once a checkpoint has
    staged the new content of the notebook, the content still differs
    from the last commit ([v1] against [v0]); a second checkpoint finds
    no difference between the file and the index, stages nothing and
    returns the record of [HEAD] with the date of the commit, not the
    sentinel with the current time. *)
Lemma create_checkpoint_staged_returns_head :
  let w_staged := snd (Demo.create (Demo.staging_only 5) nb Demo.w_edited) in
  let out := Demo.create (Demo.staging_only 5) nb w_staged in
  fst (Demo.in_git nb w_staged) = Ok true /\
  lookup "a.ipynb" (worktree (disk w_staged)) = Some "v1" /\
  lookup "a.ipynb" (head_tree (disk w_staged)) = Some "v0" /\
  fst out = Ok (mkCheckpoint "HEAD" (date_of 0)) /\
  id (mkCheckpoint "HEAD" (date_of 0)) <> sentinel /\
  trace (snd out)
  = trace w_staged
    ++ [mkCommand "/srv/proj" ["git"; "log"; "-1"; "--oneline"; "a.ipynb"];
        mkCommand "/srv/proj" ["git"; "diff"; "a.ipynb"];
        mkCommand "/srv/proj" ["git"; "log"; "-1"; "--date=iso"; "--format=%ad";
                               "HEAD"]] /\
  disk (snd out) = disk w_staged.
Proof.
  cbv zeta. repeat split; try (vm_compute; reflexivity).
  vm_compute. discriminate.
Qed.

(** C5, as stated, fails.  In staging-only mode, after a checkpoint has
    staged new content and the first content has been saved again, the
    working content is the content of the last commit; [git status -s]
    still reports the file, whose staged content differs from both, and
    the listing starts with the sentinel. *)
Lemma list_checkpoints_sentinel_on_unchanged_content :
  lookup "a.ipynb" (worktree (disk Demo.w_reverted))
  = lookup "a.ipynb" (head_tree (disk Demo.w_reverted))
  /\
  run "/srv/proj" ["git"; "status"; "-s"; "a.ipynb"] (disk Demo.w_reverted)
  = (Exit0 ("MM a.ipynb" ++ nl)%string, disk Demo.w_reverted)
  /\
  exists recs w',
    Demo.listing (Demo.staging_only 5) nb None Demo.w_reverted = (Ok recs, w') /\
    map id recs = [sentinel; hash_of 0].
Proof.
  split; [reflexivity |]. split; [reflexivity |].
  do 2 eexists. split; [vm_compute; reflexivity | reflexivity].
Qed.

(** C9.  [rename_checkpoint] of the tracked notebook: its one command,
    [git rm a.ipynb], is run in [/srv/srv/proj], the directory of the OS
    path mapped a second time, and not in [/srv/proj], where every other
    method runs git for this file and where [git rm] does remove it; the
    command fails and the file is still in the index. *)
Theorem rename_checkpoint_runs_in_wrong_directory :
  let out := Demo.rename None nb "proj/b.ipynb" Demo.w0 in
  trace (snd out) = [mkCommand "/srv/srv/proj" ["git"; "rm"; "a.ipynb"]]
  /\ is_ok (fst out) = false
  /\ lookup "a.ipynb" (index (disk (snd out))) = Some "v0"
  /\ git_command root_dir _get_os_path (ArgList ["rm"]) nb true
     = mkCommand "/srv/proj" ["git"; "rm"; "a.ipynb"]
  /\ lookup "a.ipynb"
            (index (snd (run "/srv/proj" ["git"; "rm"; "a.ipynb"] Demo.repo0)))
     = None.
Proof. cbv zeta. repeat split; vm_compute; reflexivity. Qed.

(** What [git status -s] prints for a file is blank exactly when the
    last commit, the index and the working file agree on it. *)
Lemma status_reports_uncommitted name r :
  truthy (strip (rstrip (status_line name r)))
  = negb (same (lookup name (head_tree r)) (lookup name (index r))
          && same (lookup name (index r)) (lookup name (worktree r))).
Proof.
  rewrite PyStrFacts.truthy_strip_rstrip. unfold status_line.
  destruct (lookup name (head_tree r)) as [h |],
           (lookup name (index r)) as [i |],
           (lookup name (worktree r)) as [w |];
    unfold letter; simpl;
    repeat match goal with
           | |- context [String.eqb ?a ?b] => destruct (String.eqb a b)
           end;
    reflexivity.
Qed.

(** *** Runs for the further properties *)

(** The author date of a commit of the notebook's repository, by name. *)
Local Abbreviation date_in r :=
  (fun i => match find_commit i (commits r) with
            | Some c => c_date c
            | None => EmptyString
            end).

(** The probe's command on the notebook, by [git_returns_stripped_output]. *)
Lemma git_returns_stripped_output_witness :
  exists text,
    run "/srv/proj" ["git"; "log"; "-1"; "--oneline"; "a.ipynb"] Demo.repo0
    = (Exit0 text, Demo.repo0) /\
    rstrip text = "c0ffee0 initial" /\
    rstrip (rstrip text) = rstrip text.
Proof.
  edestruct (git_returns_stripped_output
               Repo run root_dir _get_os_path
               (ArgStr "log -1 --oneline") nb true Demo.w0)
    as (text & Hg & Ho & Hi & _).
  - vm_compute. reflexivity.
  - exists text. split; [exact Hg |]. rewrite <- Ho. split; [reflexivity | exact Hi].
Defined.

(** The notebook's directory and file name, by [git_command_location]. *)
Lemma git_command_location_witness :
  truthy nb = true /\
  exists dir name seps,
    git_command root_dir _get_os_path (ArgStr "diff") nb true
    = mkCommand dir ("git" :: split "diff" ++ [name]) /\
    git_command root_dir _get_os_path (ArgStr "diff") nb false
    = mkCommand dir ("git" :: split "diff") /\
    (dir ++ seps ++ name)%string = "/srv/proj/a.ipynb" /\
    PyStrWords.no_slash name = true /\
    all_slashes seps = true /\
    ((dir = EmptyString /\ seps = EmptyString)
     \/ (truthy dir = true /\ all_slashes dir = true /\ seps = EmptyString)
     \/ (truthy dir = true /\ PyStrWords.ends_with_slash dir = false /\
         truthy seps = true)).
Proof.
  split; [reflexivity |].
  exact (proj1 (git_command_location root_dir _get_os_path (ArgStr "diff") nb)
               eq_refl).
Defined.

(** The listing of the three commits, twice, by
    [list_checkpoints_commit_mode]. *)
Lemma list_checkpoints_commit_mode_witness :
  exists w1 w2,
    Demo.listing default_config nb None Demo.w_three
    = (Ok [mkCheckpoint (hash_of 2) (date_of 2);
           mkCheckpoint (hash_of 1) (date_of 1);
           mkCheckpoint (hash_of 0) (date_of 0)], w1) /\
    length (trace w1) = length (trace Demo.w_three) + 4 /\
    Demo.listing default_config nb None w1
    = (Ok [mkCheckpoint (hash_of 2) (date_of 2);
           mkCheckpoint (hash_of 1) (date_of 1);
           mkCheckpoint (hash_of 0) (date_of 0)], w2).
Proof.
  edestruct (list_checkpoints_commit_mode
               datetime Repo run clock parse_date root_dir _get_os_path
               default_config nb None Demo.w_three
               (lines [hash_of 2; hash_of 1; hash_of 0])
               (date_in (disk Demo.w_three)))
    as (w1 & w2 & E1 & Ht & _ & _ & E2).
  - reflexivity.
  - vm_compute. reflexivity.
  - vm_compute. intros [H | [H | [H | []]]]; discriminate.
  - intros i Hi. vm_compute in Hi.
    destruct Hi as [<- | [<- | [<- | []]]]; eexists; split; vm_compute; reflexivity.
  - exists w1, w2. split; [exact E1 |]. split; [| exact E2].
    rewrite Ht. rewrite length_app. reflexivity.
Defined.

(** The staging-only listing of the edited notebook, by
    [list_checkpoints_staging_mode]: the sentinel carries the reading of
    the clock. *)
Lemma list_checkpoints_staging_mode_witness :
  exists w1,
    Demo.listing (Demo.staging_only 5) nb None Demo.w_edited
    = (Ok [mkCheckpoint sentinel (clock 0);
           mkCheckpoint (hash_of 0) (date_of 0)], w1) /\
    ticks w1 = 1.
Proof.
  edestruct (list_checkpoints_staging_mode
               datetime Repo run clock parse_date root_dir _get_os_path
               (Demo.staging_only 5) nb None Demo.w_edited
               (lines [hash_of 0]) (" M a.ipynb" ++ nl)%string
               (date_in (disk Demo.w_edited)))
    as (w1 & E1 & _ & Ht & _).
  - reflexivity.
  - vm_compute. reflexivity.
  - vm_compute. reflexivity.
  - vm_compute. intros [H | []]; discriminate.
  - intros i Hi. vm_compute in Hi.
    destruct Hi as [<- | []]; eexists; split; vm_compute; reflexivity.
  - exists w1. split; [exact E1 | exact Ht].
Defined.

(** The ids of that listing, by [list_checkpoints_ids_are_words]. *)
Lemma list_checkpoints_ids_are_words_witness :
  Forall (fun r : Checkpoint datetime => PyStrWords.word (id r) = true)
         [mkCheckpoint sentinel (clock 0);
          mkCheckpoint (hash_of 0) (date_of 0)].
Proof.
  eapply (list_checkpoints_ids_are_words
            datetime Repo run clock parse_date root_dir _get_os_path
            (Demo.staging_only 5) nb None Demo.w_edited).
  vm_compute. reflexivity.
Defined.

(** The checkpoint of the edited notebook in commit mode, by
    [create_checkpoint_commit_mode]. *)
Lemma create_checkpoint_commit_mode_witness :
  exists w',
    Demo.create default_config nb Demo.w_edited
    = (Ok (mkCheckpoint (hash_of 1) (date_of 1)), w') /\
    map cmd_argv (trace w')
    = [["git"; "log"; "-1"; "--oneline"; "a.ipynb"];
       ["git"; "diff"; "a.ipynb"];
       ["git"; "add"; "a.ipynb"];
       ["git"; "commit"; "-m"; "notebook checkpoint a.ipynb"; "-o"; "a.ipynb"];
       ["git"; "log"; "--format=%H"; "-1"; "a.ipynb"];
       ["git"; "log"; "-1"; "--date=iso"; "--format=%ad"; hash_of 1]] /\
    lookup "a.ipynb" (head_tree (disk w')) = Some "v1".
Proof.
  edestruct (create_checkpoint_commit_mode
               datetime Repo unit run clock parse_date root_dir _get_os_path
               super_create_checkpoint default_config tt nb Demo.w_edited)
    as (w' & E & Ht & Hd & _).
  - reflexivity.
  - reflexivity.
  - reflexivity.
  - reflexivity.
  - reflexivity.
  - reflexivity.
  - reflexivity.
  - vm_compute. reflexivity.
  - discriminate.
  - reflexivity.
  - reflexivity.
  - exists w'. split; [exact E |]. rewrite Ht, Hd. split; reflexivity.
Defined.

(** Three failing checkpoints, by [create_checkpoint_stops_at_failure]:
    a git whose diff fails, a git whose add fails, and the notebook with
    new content staged and its first content saved again, which
    [git commit -o] has nothing to commit for. *)
Lemma create_checkpoint_stops_at_failure_witness :
  (exists w',
      ScriptedGit.create default_config "a.ipynb"
        (ScriptedGit.world [(["git"; "diff"; "a.ipynb"], ExitNonzero 1)])
      = (Raise (UnboundLocalError "out"), w') /\
      map cmd_argv (trace w')
      = [["git"; "log"; "-1"; "--oneline"; "a.ipynb"];
         ["git"; "diff"; "a.ipynb"]])
  /\
  (exists w',
      ScriptedGit.create default_config "a.ipynb"
        (ScriptedGit.world [(["git"; "add"; "a.ipynb"], ExitNonzero 1)])
      = (Raise (UnboundLocalError "out"), w') /\
      map cmd_argv (trace w')
      = [["git"; "log"; "-1"; "--oneline"; "a.ipynb"];
         ["git"; "diff"; "a.ipynb"];
         ["git"; "add"; "a.ipynb"]])
  /\
  (exists w',
      Demo.create default_config nb Demo.w_reverted
      = (Raise (UnboundLocalError "out"), w') /\
      length (commits (disk w')) = 1 /\
      lookup "a.ipynb" (index (disk w')) = Some "v0").
Proof.
  split; [| split].
  - edestruct (proj1 (create_checkpoint_stops_at_failure
                        datetime ScriptedGit.Script unit ScriptedGit.run clock
                        parse_date root_dir _get_os_path ScriptedGit.fallback
                        default_config tt "a.ipynb"
                        (ScriptedGit.world
                           [(["git"; "diff"; "a.ipynb"], ExitNonzero 1)])
                        _ _ eq_refl))
      as (w' & E & Ht & _); [reflexivity |].
    exists w'. split; [exact E |]. rewrite Ht. reflexivity.
  - edestruct (proj1 (proj2 (create_checkpoint_stops_at_failure
                               datetime ScriptedGit.Script unit ScriptedGit.run
                               clock parse_date root_dir _get_os_path
                               ScriptedGit.fallback default_config tt "a.ipynb"
                               (ScriptedGit.world
                                  [(["git"; "add"; "a.ipynb"], ExitNonzero 1)])
                               _ _ eq_refl)
                            _ _ eq_refl eq_refl))
      as (w' & E & Ht & _); [reflexivity |].
    exists w'. split; [exact E |]. rewrite Ht. reflexivity.
  - edestruct (proj2 (proj2 (create_checkpoint_stops_at_failure
                               datetime Repo unit run clock parse_date root_dir
                               _get_os_path super_create_checkpoint
                               default_config tt nb Demo.w_reverted
                               _ _ eq_refl)
                            _ _ eq_refl eq_refl))
      as (w' & E & _ & Hd); [reflexivity | reflexivity | reflexivity |].
    exists w'. split; [exact E |]. rewrite Hd. split; reflexivity.
Defined.

(** A git whose log prints nothing after the commit, by
    [create_checkpoint_index_error]. *)
Lemma create_checkpoint_index_error_witness :
  exists w',
    ScriptedGit.create default_config "a.ipynb"
      (ScriptedGit.world
         [(["git"; "log"; "--format=%H"; "-1"; "a.ipynb"], Exit0 "")])
    = (Raise IndexError, w') /\
    map cmd_argv (trace w')
    = [["git"; "log"; "-1"; "--oneline"; "a.ipynb"];
       ["git"; "diff"; "a.ipynb"];
       ["git"; "add"; "a.ipynb"];
       ["git"; "commit"; "-m"; "notebook checkpoint a.ipynb"; "-o"; "a.ipynb"];
       ["git"; "log"; "--format=%H"; "-1"; "a.ipynb"]].
Proof.
  edestruct (create_checkpoint_index_error
               datetime ScriptedGit.Script unit ScriptedGit.run clock parse_date
               root_dir _get_os_path ScriptedGit.fallback default_config tt
               "a.ipynb"
               (ScriptedGit.world
                  [(["git"; "log"; "--format=%H"; "-1"; "a.ipynb"], Exit0 "")]))
    as (w' & E & Ht & _).
  - reflexivity.
  - reflexivity.
  - reflexivity.
  - reflexivity.
  - reflexivity.
  - reflexivity.
  - reflexivity.
  - reflexivity.
  - exists w'. split; [exact E |]. rewrite Ht. reflexivity.
Defined.

(** A git that prints an empty date, by [checkpoint_model_parser_error]. *)
Lemma checkpoint_model_parser_error_witness :
  exists w',
    ScriptedGit.model "abc123" "a.ipynb"
      (ScriptedGit.world
         [(["git"; "log"; "-1"; "--date=iso"; "--format=%ad"; "abc123"],
           Exit0 nl)])
    = (Raise (ParserError ""), w').
Proof.
  edestruct (checkpoint_model_parser_error
               datetime ScriptedGit.Script ScriptedGit.run clock parse_date
               root_dir _get_os_path "abc123" "a.ipynb"
               (ScriptedGit.world
                  [(["git"; "log"; "-1"; "--date=iso"; "--format=%ad"; "abc123"],
                    Exit0 nl)]))
    as (w' & E & _).
  - discriminate.
  - reflexivity.
  - reflexivity.
  - exists w'. exact E.
Defined.

(** A log of three ids of which the second is unknown to git, by
    [list_checkpoints_fails_as_a_whole]: the third is never queried. *)
Lemma list_checkpoints_fails_as_a_whole_witness :
  exists w',
    ScriptedGit.listing default_config "a.ipynb" None
      (ScriptedGit.world
         [(["git"; "log"; "--format=%H"; "-5"; "a.ipynb"], Exit0 "aaa bbb ccc");
          (["git"; "log"; "-1"; "--date=iso"; "--format=%ad"; "bbb"],
           ExitNonzero 128)])
    = (Raise (UnboundLocalError "out"), w') /\
    map cmd_argv (trace w')
    = [["git"; "log"; "--format=%H"; "-5"; "a.ipynb"];
       ["git"; "log"; "-1"; "--date=iso"; "--format=%ad"; "aaa"];
       ["git"; "log"; "-1"; "--date=iso"; "--format=%ad"; "bbb"]].
Proof.
  edestruct (list_checkpoints_fails_as_a_whole
               datetime ScriptedGit.Script ScriptedGit.run clock parse_date
               root_dir _get_os_path default_config "a.ipynb" None
               (ScriptedGit.world
                  [(["git"; "log"; "--format=%H"; "-5"; "a.ipynb"],
                    Exit0 "aaa bbb ccc");
                   (["git"; "log"; "-1"; "--date=iso"; "--format=%ad"; "bbb"],
                    ExitNonzero 128)])
               "aaa bbb ccc" (fun _ => "ok") ["aaa"] "bbb" ["ccc"] 128%Z)
    as (w' & E & Ht).
  - reflexivity.
  - reflexivity.
  - reflexivity.
  - intros [H | []]. discriminate.
  - intros i [<- | []]. exists "ok". split; reflexivity.
  - discriminate.
  - reflexivity.
  - exists w'. split; [exact E |]. rewrite Ht. reflexivity.
Defined.

End Runs.
